(** * mpcgen: the extraction and normalisation pipeline

    A shallow embedding of the manifest generator.  The repository ships the
    same pipeline in two hand-written variants and one compiled copy:

    - the library entry point ([index.ts], compiled to [index.js]), and
    - the command-line entry point (the hardened variant with logging,
      per-symbol [try]/[catch] and [.catch] handlers on the scanners).

    Functions that are textually identical in both variants are embedded once
    at top level; the ones that differ live in [Module Lib] and [Module Cli].

    Strings are [string] (sequences of bytes).  Case mapping, white space and
    case-insensitive matching are the ASCII ones: a byte above 127 is left
    alone by [toLowerCase], is no white space and matches no pattern letter.
    For regular expressions without the [u] flag the last point is exactly
    what ECMAScript's Canonicalize prescribes. *)

From Stdlib Require Import Ascii String.
From stdpp Require Import base option list gmap strings pretty.

Local Open Scope stdpp_scope.

(** ** JavaScript string primitives

    Texts are strings of ASCII characters.  On such a text [toLowerCase]
    folds the letters A to Z and nothing else, [trim] and the class of
    blanks of a regular expression take the six blanks of ASCII, and the dot
    of a regular expression leaves out the line feed and the carriage
    return only.  What the methods do to other characters (letters with
    case outside ASCII, the no-break space, the byte order mark, the line
    and paragraph separators) is not modelled: where a property
    would depend on it, it assumes [asciiText] of the text. *)

Module JS.

Definition isUpper (c : ascii) : bool :=
  let n := nat_of_ascii c in Nat.leb 65 n && Nat.leb n 90.

Definition isLower (c : ascii) : bool :=
  let n := nat_of_ascii c in Nat.leb 97 n && Nat.leb n 122.

Definition toLowerCaseChar (c : ascii) : ascii :=
  if isUpper c then ascii_of_nat (nat_of_ascii c + 32) else c.

Definition toUpperCaseChar (c : ascii) : ascii :=
  if isLower c then ascii_of_nat (nat_of_ascii c - 32) else c.

(** [s.toLowerCase()] *)
Fixpoint toLowerCase (s : string) : string :=
  match s with
  | EmptyString => EmptyString
  | String c s' => String (toLowerCaseChar c) (toLowerCase s')
  end.

(** [s.startsWith(p)] *)
Definition startsWith (s p : string) : bool := String.prefix p s.

(** [s.includes(sub)] *)
Fixpoint includes (s sub : string) : bool :=
  String.prefix sub s
  || match s with
     | EmptyString => false
     | String _ s' => includes s' sub
     end.


(** [\s] and the characters removed by [trim()]. *)
Definition isSpace (c : ascii) : bool := Ascii.is_space c.

Fixpoint trimStart (s : string) : string :=
  match s with
  | EmptyString => EmptyString
  | String c s' => if isSpace c then trimStart s' else s
  end.

(** [trimEnd] keeps a character when it is no white space or when something
    that is kept follows it. *)
Fixpoint trimEnd (s : string) : string :=
  match s with
  | EmptyString => EmptyString
  | String c s' =>
      match trimEnd s' with
      | EmptyString => if isSpace c then EmptyString else String c EmptyString
      | r => String c r
      end
  end.

(** [s.trim()] *)
Definition trim (s : string) : string := trimEnd (trimStart s).

(** [parts.join(sep)] *)
Fixpoint join (sep : string) (parts : list string) : string :=
  match parts with
  | [] => ""
  | [p] => p
  | p :: rest => p +:+ sep +:+ join sep rest
  end.

(** *** Anchored, case-insensitive alternations: [/^(a|b|c)/i]

    Canonicalize compares the upper-case images of the two characters. *)
Definition eqCI (a b : ascii) : bool :=
  Ascii.eqb (toUpperCaseChar a) (toUpperCaseChar b).

(** The rest of [s] after the literal [p], matched ignoring case. *)
Fixpoint dropPrefixCI (p s : string) : option string :=
  match p, s with
  | EmptyString, _ => Some s
  | String a p', String b s' => if eqCI a b then dropPrefixCI p' s' else None
  | String _ _, EmptyString => None
  end.

(** Alternatives are tried left to right; the first that matches decides
    what is consumed. *)
Fixpoint matchAltCI (alts : list string) (s : string) : option string :=
  match alts with
  | [] => None
  | a :: rest =>
      match dropPrefixCI a s with
      | Some r => Some r
      | None => matchAltCI rest s
      end
  end.

(** [s.match(/^(alts)/i)] used as a condition. *)
Definition testAltCI (alts : list string) (s : string) : bool :=
  bool_decide (is_Some (matchAltCI alts s)).

(** [s.replace(/^(alts)/i, '')] *)
Definition stripAltCI (alts : list string) (s : string) : string :=
  default s (matchAltCI alts s).

(** *** Global replacement by the empty string: [s.replace(/re/g, '')]

    [matchAt s] is the length of the match of [re] starting at the head of
    [s], if there is one (never 0 for the expressions used here).  The scan
    goes left to right; after a match it resumes behind the match, which the
    [skip] counter implements by dropping that many further characters. *)
Fixpoint removeAllFrom (matchAt : string -> option nat) (skip : nat) (s : string)
  : string :=
  match s with
  | EmptyString => EmptyString
  | String c s' =>
      match skip with
      | S k => removeAllFrom matchAt k s'
      | O =>
          match matchAt s with
          | Some (S k) => removeAllFrom matchAt k s'
          | _ => String c (removeAllFrom matchAt 0 s')
          end
      end
  end.

Definition removeAll (matchAt : string -> option nat) (s : string) : string :=
  removeAllFrom matchAt 0 s.

(** A literal at the head of [s]. *)
Definition litAt (lit s : string) : option nat :=
  if String.prefix lit s then Some (String.length lit) else None.

(** First alternative that matches at the head of [s]. *)
Fixpoint firstOf (ms : list (string -> option nat)) (s : string) : option nat :=
  match ms with
  | [] => None
  | m :: rest => match m s with Some n => Some n | None => firstOf rest s end
  end.

End JS.

(** ** Name Classifier: [guessDescription] *)

Definition fetchPrefixes : list string :=
  ["get"; "fetch"; "find"; "retrieve"; "load"; "query"].
Definition createPrefixes : list string := ["create"; "add"; "insert"; "post"].
Definition updatePrefixes : list string :=
  ["update"; "edit"; "modify"; "patch"; "put"].
Definition deletePrefixes : list string := ["delete"; "remove"; "destroy"].
Definition listPrefixes : list string := ["list"; "getAll"].
Definition searchPrefixes : list string := ["search"; "filter"].
Definition validatePrefixes : list string := ["validate"; "check"; "verify"].
Definition authPrefixes : list string := ["auth"; "login"; "logout"; "register"].

(** [params] is [Object.keys(params)]: the parameter names, in insertion
    order and without repetition. *)
Definition guessDescription (name : string) (params : list string) : string :=
  let paramCount := length params in
  let hasId := existsb (fun p => JS.includes (JS.toLowerCase p) "id") params in
  if JS.testAltCI fetchPrefixes name then
    if hasId
    then "Fetch a specific " +:+ JS.toLowerCase (JS.stripAltCI fetchPrefixes name) +:+ " by ID"
    else "Fetch " +:+ JS.toLowerCase (JS.stripAltCI fetchPrefixes name) +:+ " data"
  else if JS.testAltCI createPrefixes name then
    "Create a new " +:+ JS.toLowerCase (JS.stripAltCI createPrefixes name) +:+ " record"
  else if JS.testAltCI updatePrefixes name then
    "Update an existing " +:+ JS.toLowerCase (JS.stripAltCI updatePrefixes name) +:+ " record"
  else if JS.testAltCI deletePrefixes name then
    "Delete a " +:+ JS.toLowerCase (JS.stripAltCI deletePrefixes name) +:+ " record"
  else if JS.testAltCI listPrefixes name then
    "List all " +:+ JS.toLowerCase (JS.stripAltCI listPrefixes name) +:+ " records"
  else if JS.testAltCI searchPrefixes name then
    "Search and filter " +:+ JS.toLowerCase (JS.stripAltCI searchPrefixes name) +:+ " records"
  else if JS.testAltCI validatePrefixes name then
    "Validate " +:+ JS.toLowerCase (JS.stripAltCI validatePrefixes name) +:+ " data"
  else
    "Function: " +:+ name
      +:+ (if Nat.ltb 0 paramCount then " (" +:+ pretty paramCount +:+ " parameters)" else "").

(** ** Type Normalizer: [parseTypeScriptType] *)

Module RegExp.

(** Leading characters of [s] that satisfy [keep], and what follows. *)
Fixpoint span (keep : ascii -> bool) (s : string) : string * string :=
  match s with
  | EmptyString => (EmptyString, EmptyString)
  | String c s' =>
      if keep c
      then let '(a, b) := span keep s' in (String c a, b)
      else (EmptyString, s)
  end.

Definition notChar (x : ascii) (c : ascii) : bool := negb (Ascii.eqb c x).

(** [/import\([^)]+\)\./] at the head of [s]: the length of the match. *)
Definition importAt (s : string) : option nat :=
  if String.prefix "import(" s then
    let '(inner, rest) := span (notChar ")") (String.substring 7 (String.length s - 7) s) in
    if negb (String.eqb inner "") && String.prefix ")." rest
    then Some (7 + String.length inner + 2)
    else None
  else None.

(** The double quote, written [\x22] in the expressions quoted below. *)
Definition dquote : ascii := "034"%char.

(** [/\x22([^\x22]+)\x22/] at the head of [s]: the captured group and the
    length of the match. *)
Definition quotedAt (s : string) : option (string * nat) :=
  match s with
  | String "034" r =>
      let '(inner, rest) := span (notChar dquote) r in
      if negb (String.eqb inner "") && String.prefix (String dquote "") rest
      then Some (inner, String.length inner + 2)
      else None
  | _ => None
  end.

(** [s.match(/\x22([^\x22]+)\x22/g)?.map(m => m.slice(1, -1)) || []]: the
    matches are taken left to right and do not overlap. *)
Fixpoint quotedAllFrom (skip : nat) (s : string) : list string :=
  match s with
  | EmptyString => []
  | String _ s' =>
      match skip with
      | S k => quotedAllFrom k s'
      | O =>
          match quotedAt s with
          | Some (v, S k) => v :: quotedAllFrom k s'
          | _ => quotedAllFrom 0 s'
          end
      end
  end.

Definition quotedAll (s : string) : list string := quotedAllFrom 0 s.

(** [/^\x22([^\x22]+)\x22(\s*\|\s*\x22([^\x22]+)\x22)*$/] as the automaton
    it denotes.  No choice is ever open: [[^\x22]+] must run to the next
    quote, [\s*] must take every blank because a bar or a quote has to
    follow. *)
Inductive enumState :=
| Start        (* nothing read, an opening quote is due *)
| Opened       (* opening quote read, the literal is still empty *)
| Inside       (* at least one character of the literal read *)
| Closed       (* a literal is complete: the only accepting state *)
| BeforeBar    (* blanks after a literal *)
| AfterBar     (* the bar and blanks after it *)
| Dead.

Definition enumStep (st : enumState) (c : ascii) : enumState :=
  let quote := Ascii.eqb c dquote in
  let bar := Ascii.eqb c "|" in
  match st with
  | Start => if quote then Opened else Dead
  | Opened => if quote then Dead else Inside
  | Inside => if quote then Closed else Inside
  | Closed | BeforeBar =>
      if bar then AfterBar else if JS.isSpace c then BeforeBar else Dead
  | AfterBar =>
      if quote then Opened else if JS.isSpace c then AfterBar else Dead
  | Dead => Dead
  end.

Fixpoint enumRun (st : enumState) (s : string) : enumState :=
  match s with
  | EmptyString => st
  | String c s' => enumRun (enumStep st c) s'
  end.

Definition enumMatch (s : string) : bool :=
  match enumRun Start s with Closed => true | _ => false end.

(** [.] matches everything but a line terminator. *)
Definition isDot (c : ascii) : bool :=
  negb (Ascii.eqb c "010" || Ascii.eqb c "013").

(** The part of [s] before its last [x], when [x] occurs. *)
Fixpoint beforeLast (x : ascii) (s : string) : option string :=
  match s with
  | EmptyString => None
  | String c s' =>
      match beforeLast x s' with
      | Some p => Some (String c p)
      | None => if Ascii.eqb c x then Some EmptyString else None
      end
  end.

(** [/Promise<(.+)>/] at the head of [s]: the captured group.  The greedy
    [.+] runs to the end of the line and backs up to the last [>]; it has to
    keep one character at least. *)
Definition promiseAt (s : string) : option string :=
  if String.prefix "Promise<" s then
    let line := fst (span isDot (String.substring 8 (String.length s - 8) s)) in
    match beforeLast ">" line with
    | Some (String c p) => Some (String c p)
    | _ => None
    end
  else None.

(** [s.match(/Promise<(.+)>/)?.[1]]: the leftmost position with a match. *)
Fixpoint promiseInner (s : string) : option string :=
  match promiseAt s with
  | Some g => Some g
  | None =>
      match s with
      | EmptyString => None
      | String _ s' => promiseInner s'
      end
  end.

End RegExp.

(** The value of the [type] field.  It is a string except when the type text
    names a property that the [typeMap] object literal inherits from
    [Object.prototype]: then [typeMap[cleanType]] is that (truthy) function or
    object, and it is what ends up in the field. *)
Inductive typeTag :=
| Tag (s : string)
| Inherited (key : string).

Global Instance typeTag_eq_dec : EqDecision typeTag.
Proof. solve_decision. Defined.

Module TypeInfo.
Record t := mk {
  type : typeTag;
  description : option string;
  enum : option (list string)
}.
End TypeInfo.

(** Own properties of the [typeMap] literal. *)
Definition typeMap : list (string * string) :=
  [ ("string", "string"); ("number", "number"); ("boolean", "boolean");
    ("Date", "string"); ("any", "any"); ("unknown", "any");
    ("object", "object"); ("void", "null"); ("undefined", "null");
    ("null", "null") ].

(** Properties every object literal inherits. *)
Definition objectPrototypeKeys : list string :=
  [ "constructor"; "__defineGetter__"; "__defineSetter__"; "hasOwnProperty";
    "__lookupGetter__"; "__lookupSetter__"; "isPrototypeOf";
    "propertyIsEnumerable"; "toString"; "valueOf"; "__proto__";
    "toLocaleString" ].

Fixpoint assoc (k : string) (l : list (string * string)) : option string :=
  match l with
  | [] => None
  | (k', v) :: rest => if String.eqb k k' then Some v else assoc k rest
  end.

(** [typeMap[key]]; [None] is [undefined]. *)
Definition typeMapGet (key : string) : option typeTag :=
  match assoc key typeMap with
  | Some v => Some (Tag v)
  | None =>
      if bool_decide (key ∈ objectPrototypeKeys) then Some (Inherited key) else None
  end.

(** [typeText.replace(/import\([^)]+\)\./g, '').trim()]: the type text without
    its module qualifiers. *)
Definition stripQualifiers (typeText : string) : string :=
  JS.trim (JS.removeAll RegExp.importAt typeText).

(** The array rule of the normalizer: what triggers it and what it removes
    from the text for the description. *)
Definition arrayLike (cleanType : string) : bool :=
  JS.includes cleanType "[]" || JS.startsWith cleanType "Array<".

Definition arrayMarkers : string -> option nat :=
  JS.firstOf [JS.litAt "[]"; JS.litAt "Array<"; JS.litAt ">"].

(** ** Symbol Filter and categories *)

(** [/^[A-Z]/] *)
Definition startsUpper (name : string) : bool :=
  match name with
  | String c _ => JS.isUpper c
  | EmptyString => false
  end.

(** [nodeFilePath] is [node.getSourceFile().getFilePath()]. *)
Definition isValidToolFunction (name : string) (nodeFilePath : string) : bool :=
  if JS.startsWith name "_" || JS.startsWith name "#" then false
  else if JS.testAltCI ["test"; "spec"; "mock"; "stub"] name then false
  else if JS.testAltCI ["helper"; "util"; "internal"; "private"] name then false
  else if JS.testAltCI ["constructor"; "init"] name then false
  else if startsUpper name && JS.includes nodeFilePath "component" then false
  else true.

Definition categorizeFunction (name : string) (filePath : string) : string :=
  if JS.includes filePath "/api/" || JS.includes filePath "/routes/" then "api"
  else if JS.includes filePath "/utils/" || JS.includes filePath "/helpers/" then "utility"
  else if JS.includes filePath "/services/" then "service"
  else if JS.includes filePath "/models/" then "model"
  else if JS.includes filePath "/controllers/" then "controller"
  else if JS.includes filePath "/middleware/" then "middleware"
  else if JS.testAltCI fetchPrefixes name then "data-access"
  else if JS.testAltCI createPrefixes name then "data-creation"
  else if JS.testAltCI updatePrefixes name then "data-modification"
  else if JS.testAltCI deletePrefixes name then "data-deletion"
  else if JS.testAltCI validatePrefixes name then "validation"
  else if JS.testAltCI authPrefixes name then "authentication"
  else "general".

(** ** Plain objects used as ordered maps

    [obj[key] = value] on an object literal: a new key goes to the end, an
    existing key keeps its place, and the key [__proto__] sets the prototype
    instead of creating a property.  Keys that read as array indices, which
    an object lists first and in ascending order, are not modelled: no
    property below depends on the place of such a key. *)
Section Props.
Context {V : Type}.

Fixpoint upsert (key : string) (v : V) (obj : list (string * V)) : list (string * V) :=
  match obj with
  | [] => [(key, v)]
  | (k, v') :: rest =>
      if String.eqb k key then (k, v) :: rest else (k, v') :: upsert key v rest
  end.

Definition setProp (obj : list (string * V)) (key : string) (v : V) : list (string * V) :=
  if String.eqb key "__proto__" then obj else upsert key v obj.

(** [Object.keys(obj)] *)
Definition keys (obj : list (string * V)) : list string := fst <$> obj.
End Props.

(** ** The syntax tree as the scanner sees it

    What the scanner asks of the parsing library, as data.  Accessors of a
    parsed node are total here. *)

Inductive SyntaxKind :=
| ExportKeyword | DefaultKeyword | PublicKeyword | PrivateKeyword
| ProtectedKeyword | StaticKeyword | AsyncKeyword | AbstractKeyword.

Global Instance SyntaxKind_eq_dec : EqDecision SyntaxKind.
Proof. solve_decision. Defined.

(** The value of [getComment()]: absent, a string, or an array of text and
    link nodes (an entry is the node's text, or [None] for a hole). *)
Inductive JSDocComment :=
| NoComment
| TextComment (text : string)
| NodeComment (parts : list (option string)).

Module JSDocTag.
Record t := mk { getTagName : string; getComment : JSDocComment }.
End JSDocTag.

Module JSDoc.
Record t := mk { getComment : JSDocComment; getTags : list JSDocTag.t }.
End JSDoc.

Module ParameterDeclaration.
Record t := mk {
  getName : string;
  getTypeText : string;          (* [getType().getText()] *)
  hasQuestionToken : bool
}.
End ParameterDeclaration.

(** What function declarations and methods share. *)
Module Signature.
Record t := mk {
  getParameters : list ParameterDeclaration.t;
  getReturnTypeText : string;    (* [getReturnType().getText()] *)
  getJsDocs : list JSDoc.t
}.
End Signature.

Module FunctionDeclaration.
Record t := mk {
  getName : option string;       (* [undefined] for an anonymous default export *)
  isExported : bool;
  signature : Signature.t
}.
End FunctionDeclaration.

Inductive Initializer := ArrowFunction | FunctionExpression | OtherExpression.

Module VariableDeclaration.
Record t := mk {
  getName : string;
  isExported : bool;
  getInitializer : option Initializer
}.
End VariableDeclaration.

Module MethodDeclaration.
Record t := mk {
  getName : string;
  modifiers : list SyntaxKind;
  signature : Signature.t
}.
Definition hasModifier (m : t) (k : SyntaxKind) : bool :=
  bool_decide (k ∈ modifiers m).
End MethodDeclaration.

Module ClassDeclaration.
Record t := mk { isExported : bool; getMethods : list MethodDeclaration.t }.
End ClassDeclaration.

Module SourceFile.
Record t := mk {
  getFilePath : string;
  getFunctions : list FunctionDeclaration.t;
  getVariableDeclarations : list VariableDeclaration.t;
  getClasses : list ClassDeclaration.t
}.
End SourceFile.

(** The three kinds of node that end up in [allFunctions]:
    - a function declaration is exportable and function-like;
    - a variable declaration can tell whether it is exported; it has no
      parameters, return type or documentation of its own;
    - a method is modifierable and function-like, but not exportable. *)
Inductive FnNode :=
| FunctionNode (f : FunctionDeclaration.t)
| VariableNode (v : VariableDeclaration.t)
| MethodNode (m : MethodDeclaration.t).

Module Fn.
Definition getName (fn : FnNode) : option string :=
  match fn with
  | FunctionNode f => FunctionDeclaration.getName f
  | VariableNode v => Some (VariableDeclaration.getName v)
  | MethodNode m => Some (MethodDeclaration.getName m)
  end.

(** [None] when ['getParameters' in fn] (and likewise ['getJsDocs' in fn],
    ['getReturnType' in fn]) is false. *)
Definition signature_in (fn : FnNode) : option Signature.t :=
  match fn with
  | FunctionNode f => Some (FunctionDeclaration.signature f)
  | VariableNode _ => None
  | MethodNode m => Some (MethodDeclaration.signature m)
  end.
End Fn.

(** [sourceFile.getVariableDeclarations().filter(...)] *)
Definition functionValued (v : VariableDeclaration.t) : bool :=
  match VariableDeclaration.getInitializer v with
  | Some ArrowFunction | Some FunctionExpression => true
  | _ => false
  end.

(** Methods of exported classes that are public or not private. *)
Definition exportedClassMethods (classes : list ClassDeclaration.t)
  : list MethodDeclaration.t :=
  flat_map
    (fun cls =>
       if ClassDeclaration.isExported cls
       then filter
              (fun m => MethodDeclaration.hasModifier m PublicKeyword
                        || negb (MethodDeclaration.hasModifier m PrivateKeyword))
              (ClassDeclaration.getMethods cls)
       else [])
    classes.

Definition allFunctions (sf : SourceFile.t) : list FnNode :=
  (FunctionNode <$> SourceFile.getFunctions sf)
  ++ (VariableNode <$> filter functionValued (SourceFile.getVariableDeclarations sf))
  ++ (MethodNode <$> exportedClassMethods (SourceFile.getClasses sf)).

(** The export check of the scanner: [fn.isExported()] where the node has
    that method, else [fn.hasModifier(SyntaxKind.ExportKeyword)].  The last
    branch of the source, which looks at the parent statement, is for nodes
    with neither method; none of the three kinds is one. *)
Definition exportStatus (fn : FnNode) : bool :=
  match fn with
  | FunctionNode f => FunctionDeclaration.isExported f
  | VariableNode v => VariableDeclaration.isExported v
  | MethodNode m => MethodDeclaration.hasModifier m ExportKeyword
  end.

(** ** Tool Descriptors *)

Module ParameterSchema.
Record t := mk {
  type : typeTag;
  required : bool;
  description : option string;
  enum : option (list string)
}.
End ParameterSchema.

Module Tool.
Record t := mk {
  name : string;
  description : string;
  parameters : list (string * ParameterSchema.t);
  returnType : typeTag;
  file : string;
  examples : option (list string);   (* present when not empty *)
  category : string
}.
End Tool.

(** Results of a call: a value, an exception (a rejected promise), or the
    process ended by [process.exit]. *)
Inductive outcome (A : Type) :=
| Returned (a : A)
| Thrown
| Exited (code : nat).
Arguments Returned {A} a.
Arguments Thrown {A}.
Arguments Exited {A} code.

(** ** Parsed SQL as the scanner sees it

    The parser's results are untyped.  A field that may be absent is an
    [option]; a [None] entry of an array is a [null] or [undefined] element,
    on which any property access throws. *)

Module ColumnType.
Record t := mk { datatype : option string; length : option nat }.
End ColumnType.

Module ColumnOptions.
Record t := mk {
  notNull : bool;
  primaryKey : bool;
  autoIncrement : bool;
  defaultValue : option string
}.
End ColumnOptions.

Module Column.
Record t := mk {
  name : string;
  type : option ColumnType.t;
  options : option ColumnOptions.t
}.
End Column.

Module Index.
Record t := mk { name : option string; columns : option (list string) }.
End Index.

Module Reference.
Record t := mk { table : option string; column : option string }.
End Reference.

Module ForeignKey.
Record t := mk { column : option string; references : option Reference.t }.
End ForeignKey.

Module Table.
Record t := mk {
  name : option string;
  columns : option (list (option Column.t));
  indexes : option (list (option Index.t));
  foreignKeys : option (list (option ForeignKey.t))
}.
End Table.

(** One element of [parser.results]. *)
Module ParsedSql.
Record t := mk { tables : option (list (option Table.t)) }.
End ParsedSql.

(** ** Resource Descriptors

    The constant fields ([type], [metadata.estimatedRows]) are left out. *)

Module ColumnSchema.
Record t := mk {
  type : option string;
  nullable : bool;
  primaryKey : bool;
  autoIncrement : bool;
  defaultValue : option string;
  length : option nat
}.
End ColumnSchema.

Module ForeignKeySchema.
Record t := mk {
  column : option string;
  referencesTable : option string;
  referencesColumn : option string
}.
End ForeignKeySchema.

Module Resource.
Record t := mk {
  name : string;
  columns : list (string * ColumnSchema.t);
  indexes : list string;
  foreignKeys : list ForeignKeySchema.t;
  file : string;
  dialect : string;
  lastModified : string
}.
End Resource.

(** ** The world around the pipeline *)

(** How loading the SQL parser module ends (command-line variant). *)
Inductive ParserModule :=
| ParserLoaded
| ParserNotExported      (* the module loads but has no [Parser] *)
| ModuleNotFound.

Module ProjectMetadata.
Record t := mk {
  name : string;
  version : string;
  description : string;
  frameworks : list string
}.
End ProjectMetadata.

Module World.
Record t := mk {
  (* Source Scanner *)
  tsconfigExists : bool;                 (* [fs.existsSync] of the tsconfig file *)
  newProject : bool -> bool;             (* does [new Project] succeed, with
                                            ([true]) or without a tsconfig path *)
  tsFiles : list string;                 (* what the glob returns *)
  addSourceFileAtPath : string -> option SourceFile.t;   (* [None]: it throws *)
  (* Schema Scanner *)
  parserModule : ParserModule;
  sqlFiles : list string;
  readFileSync : string -> option string;                (* [None]: it throws *)
  parse : string -> string -> option (list (option ParsedSql.t));
      (* [new Parser(dialect)], [feed(raw)], [results]; [None]: one of them throws *)
  statMtime : string -> option string;   (* [fs.statSync(file).mtime.toISOString()] *)
  (* both *)
  existsSync : string -> bool;
  relative : string -> string;           (* [path.relative(process.cwd(), _)] *)
  (* package metadata, read by a collaborator that never fails *)
  projectMetadata : ProjectMetadata.t
}.
End World.

(** ** Source Scanner *)

Module ScanState.
Record t := mk { tools : list Tool.t; processedFunctions : gset string }.
End ScanState.

(** JavaScript truthiness of a string. *)
Definition truthy (s : string) : bool := negb (String.eqb s "").

(** [String(x)] of an array of nodes: the elements joined by commas, a node
    printing as an object and a hole as nothing. *)
Definition nodesToString (parts : list (option string)) : string :=
  JS.join "," ((fun p => match p with
                         | Some _ => "[object Object]"
                         | None => ""
                         end) <$> parts).

(** Where the two variants of the scanner differ. *)
Module Variant.
Record t := mk {
  skipAnonymous : bool;
  normalize : string -> TypeInfo.t;
  paramTypeText : ParameterDeclaration.t -> string;
  commentText : JSDocComment -> string;     (* description from a truthy comment *)
  exampleText : JSDocComment -> string      (* text of an example tag *)
}.
End Variant.

Section SourceScanner.
Variable V : Variant.t.
Variable w : World.t.

Definition parameterSchema (param : ParameterDeclaration.t) : ParameterSchema.t :=
  let paramType := Variant.paramTypeText V param in
  let isOptional := ParameterDeclaration.hasQuestionToken param in
  let typeInfo := Variant.normalize V paramType in
  ParameterSchema.mk (TypeInfo.type typeInfo) (negb isOptional)
    (TypeInfo.description typeInfo) (TypeInfo.enum typeInfo).

Definition extractParameters (paramList : list ParameterDeclaration.t)
  : list (string * ParameterSchema.t) :=
  foldl (fun parameters param =>
           setProp parameters (ParameterDeclaration.getName param)
             (parameterSchema param))
        [] paramList.

Definition commentTruthy (c : JSDocComment) : bool :=
  match c with
  | NoComment => false
  | TextComment text => truthy text
  | NodeComment _ => true
  end.

(** Description and examples: the guess from the name, overridden by the
    first documentation block. *)
Definition document (name : string) (parameters : list (string * ParameterSchema.t))
    (jsDocs : list JSDoc.t) : string * list string :=
  let description := guessDescription name (keys parameters) in
  match jsDocs with
  | [] => (description, [])
  | jsDoc :: _ =>
      let comment := JSDoc.getComment jsDoc in
      ( if commentTruthy comment then Variant.commentText V comment else description,
        (fun tag => Variant.exampleText V (JSDocTag.getComment tag))
          <$> filter (fun tag => String.eqb (JSDocTag.getTagName tag) "example")
                (JSDoc.getTags jsDoc) )
  end.

Definition buildTool (filePath : string) (name : string) (fn : FnNode) : Tool.t :=
  let paramList := default [] (Signature.getParameters <$> Fn.signature_in fn) in
  let parameters := extractParameters paramList in
  let jsDocs := default [] (Signature.getJsDocs <$> Fn.signature_in fn) in
  let '(description, examples) := document name parameters jsDocs in
  let returnType :=
    match Fn.signature_in fn with
    | Some sig => TypeInfo.type (Variant.normalize V (Signature.getReturnTypeText sig))
    | None => Tag "any"
    end in
  Tool.mk name description parameters returnType
    (World.relative w filePath)
    (if Nat.ltb 0 (length examples) then Some examples else None)
    (categorizeFunction name filePath).

(** The body of the loop over [allFunctions]. *)
Definition processFunction (filePath : string) (sf : SourceFile.t)
    (st : ScanState.t) (fn : FnNode) : ScanState.t :=
  let name := default "[anonymous]" (Fn.getName fn) in
  if Variant.skipAnonymous V && String.eqb name "[anonymous]" then st
  else if negb (isValidToolFunction name (SourceFile.getFilePath sf)) then st
  else if negb (exportStatus fn) then st
  else
    let functionKey := filePath +:+ ":" +:+ name in
    if bool_decide (functionKey ∈ ScanState.processedFunctions st) then st
    else
      ScanState.mk
        (ScanState.tools st ++ [buildTool filePath name fn])
        ({[functionKey]} ∪ ScanState.processedFunctions st).

(** The body of the loop over the files; [checkExists] is the
    [fs.existsSync(filePath)] test of the command-line variant. *)
Definition processFile (checkExists : bool) (st : ScanState.t) (filePath : string)
  : ScanState.t :=
  if checkExists && negb (World.existsSync w filePath) then st
  else
    match World.addSourceFileAtPath w filePath with
    | None => st
    | Some sourceFile =>
        foldl (processFunction filePath sourceFile) st (allFunctions sourceFile)
    end.

Definition scanFiles (checkExists : bool) : list Tool.t :=
  ScanState.tools
    (foldl (processFile checkExists) (ScanState.mk [] ∅) (World.tsFiles w)).

End SourceScanner.

(** ** Discovery order, eligibility and first occurrences

    The scanner's loops, said in the words of the specification: the
    candidates of a run in discovery order, which of them are eligible, and
    the ones that remain when only the first candidate of every
    deduplication key is kept. *)

Definition Candidate : Type := string * SourceFile.t * FnNode.

Definition candidatePath (c : Candidate) : string := c.1.1.
Definition candidateFile (c : Candidate) : SourceFile.t := c.1.2.
Definition candidateNode (c : Candidate) : FnNode := c.2.

Definition candidateName (c : Candidate) : string :=
  default "[anonymous]" (Fn.getName (candidateNode c)).

Definition candidateKey (c : Candidate) : string :=
  candidatePath c +:+ ":" +:+ candidateName c.

Fixpoint firstOccurrences (seen : gset string) (cs : list Candidate) : list Candidate :=
  match cs with
  | [] => []
  | c :: rest =>
      if bool_decide (candidateKey c ∈ seen) then firstOccurrences seen rest
      else c :: firstOccurrences ({[candidateKey c]} ∪ seen) rest
  end.

Section Discovery.
Variable V : Variant.t.
Variable w : World.t.

Definition candidatesOf (checkExists : bool) (filePath : string) : list Candidate :=
  if checkExists && negb (World.existsSync w filePath) then []
  else
    match World.addSourceFileAtPath w filePath with
    | None => []
    | Some sourceFile => (fun fn => (filePath, sourceFile, fn)) <$> allFunctions sourceFile
    end.

Definition candidates (checkExists : bool) : list Candidate :=
  flat_map (candidatesOf checkExists) (World.tsFiles w).

(** Named (where the variant asks for it), accepted by the Symbol Filter
    and exported. *)
Definition eligible (c : Candidate) : bool :=
  negb (Variant.skipAnonymous V && String.eqb (candidateName c) "[anonymous]")
  && isValidToolFunction (candidateName c) (SourceFile.getFilePath (candidateFile c))
  && exportStatus (candidateNode c).

Definition emitted (checkExists : bool) : list Candidate :=
  firstOccurrences ∅ (filter eligible (candidates checkExists)).

Definition toolOf (c : Candidate) : Tool.t :=
  buildTool V w (candidatePath c) (candidateName c) (candidateNode c).

(** One turn of the loop over [allFunctions], on a candidate. *)
Definition stepCandidate (st : ScanState.t) (c : Candidate) : ScanState.t :=
  processFunction V w (candidatePath c) (candidateFile c) st (candidateNode c).

End Discovery.

(** The kinds of the primitive table's right-hand sides. *)
Definition primitiveKinds : list string :=
  ["string"; "number"; "boolean"; "object"; "null"; "any"].

(** The checks of the Symbol Filter, one entry per [if]. *)
Definition rejections (name nodeFilePath : string) : list bool :=
  [ JS.startsWith name "_" || JS.startsWith name "#";
    JS.testAltCI ["test"; "spec"; "mock"; "stub"] name;
    JS.testAltCI ["helper"; "util"; "internal"; "private"] name;
    JS.testAltCI ["constructor"; "init"] name;
    startsUpper name && JS.includes nodeFilePath "component" ].

(** The eligible candidates of a given name among the functions of a file. *)
Definition eligibleNamed (V : Variant.t) (sf : SourceFile.t) (name : string)
    (fn : FnNode) : bool :=
  bool_decide (default "[anonymous]" (Fn.getName fn) = name)
  && negb (Variant.skipAnonymous V && String.eqb name "[anonymous]")
  && isValidToolFunction name (SourceFile.getFilePath sf)
  && exportStatus fn.

(** The names the specification lists as never extracted. *)
Definition rejectedNames : list string :=
  ["_helper"; "#priv"; "testFoo"; "mockBar"; "ConstructorInit"].

(** ** Schema Scanner *)

(** The accumulator of the scanner, and the parser constructions it has asked
    for so far, as pairs of file and dialect in the order they happened. *)
Module SqlState.
Record t := mk { resources : list Resource.t; attempts : list (string * string) }.
End SqlState.

Definition dialects : list string := ["mysql"; "postgresql"; "sqlite"; "mssql"].

(** What one table does to the accumulator. *)
Inductive TableStep :=
| Skip                       (* [continue] *)
| Push (r : Resource.t)      (* [resources.push(...)] *)
| Throw.                     (* an exception leaves the dialect attempt *)

Section SchemaScanner.
(** The schema of a column, [None] when building it throws; the parser
    constructor with [feed] and [results]. *)
Variable columnSchema : Column.t -> option ColumnSchema.t.
Variable construct : string -> string -> option (list (option ParsedSql.t)).
Variable w : World.t.

Fixpoint buildColumns (cols : list (option Column.t))
    (columns : list (string * ColumnSchema.t))
  : option (list (string * ColumnSchema.t)) :=
  match cols with
  | [] => Some columns
  | ocol :: rest =>
      col ← ocol;
      schema ← columnSchema col;
      buildColumns rest (setProp columns (Column.name col) schema)
  end.

Definition indexName (tableName : string) (idx : Index.t) : string :=
  let synthesized :=
    tableName +:+ "_"
    +:+ match Index.columns idx with
        | Some cols => JS.join "_" cols
        | None => "undefined"
        end
    +:+ "_idx" in
  match Index.name idx with
  | Some n => if truthy n then n else synthesized
  | None => synthesized
  end.

Definition buildIndexes (tableName : string) (idxs : list (option Index.t))
  : option (list string) :=
  mapM (fun oidx => indexName tableName <$> oidx) idxs.

Definition foreignKeySchema (fk : ForeignKey.t) : ForeignKeySchema.t :=
  ForeignKeySchema.mk (ForeignKey.column fk)
    (ForeignKey.references fk ≫= Reference.table)
    (ForeignKey.references fk ≫= Reference.column).

Definition buildForeignKeys (fks : list (option ForeignKey.t))
  : option (list ForeignKeySchema.t) :=
  mapM (fun ofk => foreignKeySchema <$> ofk) fks.

(** The body of the loop over the tables of one parse. *)
Definition tableStep (file dialect : string) (otable : option Table.t) : TableStep :=
  match otable with
  | None => Skip
  | Some table =>
      match Table.name table with
      | None => Skip
      | Some name =>
          if negb (truthy name) then Skip
          else
            match
              columns ← match Table.columns table with
                        | Some cols => buildColumns cols []
                        | None => Some []
                        end;
              indexes ← match Table.indexes table with
                        | Some idxs => buildIndexes name idxs
                        | None => Some []
                        end;
              foreignKeys ← match Table.foreignKeys table with
                            | Some fks => buildForeignKeys fks
                            | None => Some []
                            end;
              lastModified ← World.statMtime w file;
              Some (Resource.mk name columns indexes foreignKeys
                      (World.relative w file) dialect lastModified)
            with
            | Some r => Push r
            | None => Throw
            end
      end
  end.

(** The loop over the tables: the accumulator afterwards, and whether the
    end of the loop was reached.  What was pushed before an exception stays
    pushed. *)
Fixpoint processTables (file dialect : string) (tables : list (option Table.t))
    (resources : list Resource.t) : list Resource.t * bool :=
  match tables with
  | [] => (resources, true)
  | table :: rest =>
      match tableStep file dialect table with
      | Skip => processTables file dialect rest resources
      | Push r => processTables file dialect rest (resources ++ [r])
      | Throw => (resources, false)
      end
  end.

(** [results.flatMap(res => res?.tables ?? [])] *)
Definition tablesOf (results : list (option ParsedSql.t)) : list (option Table.t) :=
  flat_map (fun res => default [] (res ≫= ParsedSql.tables)) results.

(** The [try] block of one dialect: the state afterwards, and whether
    [parsed = true] was reached. *)
Definition attempt (file raw : string) (st : SqlState.t) (dialect : string)
  : SqlState.t * bool :=
  let attempts := SqlState.attempts st ++ [(file, dialect)] in
  match construct dialect raw with
  | None => (SqlState.mk (SqlState.resources st) attempts, false)
  | Some results =>
      let '(resources, completed) :=
        processTables file dialect (tablesOf results) (SqlState.resources st) in
      (SqlState.mk resources attempts, completed)
  end.

(** The loop over the dialects, left by [break] after the first attempt
    that completes. *)
Fixpoint tryDialects (file raw : string) (ds : list string) (st : SqlState.t)
  : SqlState.t * bool :=
  match ds with
  | [] => (st, false)
  | dialect :: rest =>
      let '(st', parsed) := attempt file raw st dialect in
      if parsed then (st', true) else tryDialects file raw rest st'
  end.

(** The body of the loop over the files; the two flags are the existence
    test and the blank-file test of the command-line variant. *)
Definition processSqlFile (checkExists skipBlank : bool) (st : SqlState.t)
    (file : string) : SqlState.t :=
  if checkExists && negb (World.existsSync w file) then st
  else
    match World.readFileSync w file with
    | None => st
    | Some raw =>
        if skipBlank && negb (truthy (JS.trim raw)) then st
        else fst (tryDialects file raw dialects st)
    end.

Definition scanSqlFiles (checkExists skipBlank : bool) : SqlState.t :=
  foldl (processSqlFile checkExists skipBlank) (SqlState.mk [] []) (World.sqlFiles w).

End SchemaScanner.

(** The names of the tables that yield a descriptor: the tables that are
    there and have a non-empty name, in order. *)
Definition namedTables (tables : list (option Table.t)) : list string :=
  omap (fun otable =>
          name ← otable ≫= Table.name;
          if truthy name then Some name else None)
       tables.

(** ** Manifest assembly *)

Module ManifestTool.
Record t := mk {
  name : string;
  description : string;
  properties : list (string * ParameterSchema.t);
  required : list string;
  returnType : typeTag;
  category : string;
  file : string;
  examples : option (list string)
}.
End ManifestTool.

Module ManifestResource.
Record t := mk {
  uri : string;
  name : string;
  description : string;
  metadata : Resource.t
}.
End ManifestResource.

(** The envelope without its time stamp and file counts. *)
Module Manifest.
Record t := mk {
  info : ProjectMetadata.t;
  tools : list ManifestTool.t;
  resources : list ManifestResource.t;
  totalTools : nat;
  totalResources : nat
}.
End Manifest.

Definition manifestTool (tool : Tool.t) : ManifestTool.t :=
  ManifestTool.mk (Tool.name tool) (Tool.description tool) (Tool.parameters tool)
    (fst <$> filter (fun '(_, param) => ParameterSchema.required param)
               (Tool.parameters tool))
    (Tool.returnType tool) (Tool.category tool) (Tool.file tool) (Tool.examples tool).

Definition manifestResource (resource : Resource.t) : ManifestResource.t :=
  ManifestResource.mk ("sql://" +:+ Resource.name resource) (Resource.name resource)
    ("Database table: " +:+ Resource.name resource) resource.

Definition assemble (tools : list Tool.t) (resources : list Resource.t)
    (projectMetadata : ProjectMetadata.t) : Manifest.t :=
  Manifest.mk
    (ProjectMetadata.mk (ProjectMetadata.name projectMetadata)
       (ProjectMetadata.version projectMetadata)
       (if truthy (ProjectMetadata.description projectMetadata)
        then ProjectMetadata.description projectMetadata
        else "Auto-generated MCP manifest for " +:+ ProjectMetadata.name projectMetadata)
       (ProjectMetadata.frameworks projectMetadata))
    (manifestTool <$> tools) (manifestResource <$> resources)
    (length tools) (length resources).

(** [await] of a promise, then the rest. *)
Definition andThen {A B : Type} (o : outcome A) (k : A -> outcome B) : outcome B :=
  match o with
  | Returned a => k a
  | Thrown => Thrown
  | Exited code => Exited code
  end.

(** [promise.catch(error => fallback)]: a rejection is replaced; an exit of
    the process is not an exception and is not caught. *)
Definition catch {A : Type} (o : outcome A) (fallback : A) : outcome A :=
  match o with
  | Thrown => Returned fallback
  | _ => o
  end.

(** ** The library entry point *)

Module Lib.

Definition parseTypeScriptType (typeText : string) : TypeInfo.t :=
  let cleanType := stripQualifiers typeText in
  if RegExp.enumMatch cleanType then
    let enumValues := RegExp.quotedAll cleanType in
    TypeInfo.mk (Tag "string")
      (Some ("One of: " +:+ JS.join ", " enumValues)) (Some enumValues)
  else if arrayLike cleanType then
    TypeInfo.mk (Tag "array")
      (Some ("Array of " +:+ JS.removeAll arrayMarkers cleanType)) None
  else if JS.startsWith cleanType "Promise<" then
    let innerType := default "any" (RegExp.promiseInner cleanType) in
    TypeInfo.mk (Tag "promise") (Some ("Promise resolving to " +:+ innerType)) None
  else if JS.includes cleanType "{" && JS.includes cleanType "}" then
    TypeInfo.mk (Tag "object") (Some "Complex object type") None
  else
    let mapped := default (Tag cleanType) (typeMapGet cleanType) in
    TypeInfo.mk mapped
      (if bool_decide (Tag cleanType ≠ mapped) then Some cleanType else None)
      None.

Definition variant : Variant.t :=
  Variant.mk false parseTypeScriptType ParameterDeclaration.getTypeText
    (fun comment =>
       match comment with
       | TextComment text => text
       | NodeComment parts => JS.join "" (default "" <$> parts)
       | NoComment => ""
       end)
    (fun comment =>
       match comment with
       | TextComment text => text
       | NodeComment parts => nodesToString parts
       | NoComment => ""
       end).

(** [new Project] is given the tsconfig path unconditionally. *)
Definition extractTools (w : World.t) : outcome (list Tool.t) :=
  if World.newProject w true then Returned (scanFiles variant w false)
  else Thrown.

(** [col.type.datatype] throws when the column has no [type]. *)
Definition columnSchema (col : Column.t) : option ColumnSchema.t :=
  type ← Column.type col;
  Some (ColumnSchema.mk
          (ColumnType.datatype type)
          (negb (default false (ColumnOptions.notNull <$> Column.options col)))
          (default false (ColumnOptions.primaryKey <$> Column.options col))
          (default false (ColumnOptions.autoIncrement <$> Column.options col))
          (Column.options col ≫= ColumnOptions.defaultValue)
          (match ColumnType.length type with
           | Some (S n) => Some (S n)
           | _ => None
           end)).

Definition scanSql (w : World.t) : SqlState.t :=
  scanSqlFiles columnSchema (World.parse w) w false false.

Definition extractResources (w : World.t) : outcome (list Resource.t) :=
  Returned (SqlState.resources (scanSql w)).

Definition extractProjectMetadata (w : World.t) : outcome ProjectMetadata.t :=
  Returned (World.projectMetadata w).

(** [Promise.all] of the three bare promises: one rejection rejects all. *)
Definition generateMCPManifest (w : World.t) : outcome Manifest.t :=
  andThen (extractTools w) (fun tools =>
  andThen (extractResources w) (fun resources =>
  andThen (extractProjectMetadata w) (fun projectMetadata =>
  Returned (assemble tools resources projectMetadata)))).

End Lib.

(** ** The command-line entry point *)

Module Cli.

(** The command-line variant starts with [if (!typeText) return { type: any }]
    (the string any) and is the library variant from there on. *)
Definition parseTypeScriptType (typeText : string) : TypeInfo.t :=
  if String.eqb typeText "" then TypeInfo.mk (Tag "any") None None
  else Lib.parseTypeScriptType typeText.

Definition variant : Variant.t :=
  Variant.mk true parseTypeScriptType
    (fun param =>
       let text := ParameterDeclaration.getTypeText param in
       if truthy text then text else "any")
    (fun comment =>
       match comment with
       | TextComment text => text
       | NodeComment parts => JS.join "" (default "undefined" <$> parts)
       | NoComment => ""
       end)
    (fun comment =>
       match comment with
       | TextComment text => text
       | NodeComment parts => nodesToString parts
       | NoComment => "undefined"
       end).

(** [new Project] gets the tsconfig path when the file exists; when that
    throws, the constructor is called again without it, outside any [try]. *)
Definition extractTools (w : World.t) : outcome (list Tool.t) :=
  if World.newProject w (World.tsconfigExists w) || World.newProject w false then
    if Nat.eqb (length (World.tsFiles w)) 0 then Returned []
    else Returned (scanFiles variant w true)
  else Thrown.

(** [col.type?.datatype || 'unknown'] and [col.type?.length]: nothing throws
    on a column object. *)
Definition columnSchema (col : Column.t) : option ColumnSchema.t :=
  Some (ColumnSchema.mk
          (Some (match Column.type col ≫= ColumnType.datatype with
                 | Some datatype => if truthy datatype then datatype else "unknown"
                 | None => "unknown"
                 end))
          (negb (default false (ColumnOptions.notNull <$> Column.options col)))
          (default false (ColumnOptions.primaryKey <$> Column.options col))
          (default false (ColumnOptions.autoIncrement <$> Column.options col))
          (Column.options col ≫= ColumnOptions.defaultValue)
          (match Column.type col ≫= ColumnType.length with
           | Some (S n) => Some (S n)
           | _ => None
           end)).

(** [new Parser(dialect)] throws when the module exported no [Parser]. *)
Definition construct (w : World.t) (dialect raw : string)
  : option (list (option ParsedSql.t)) :=
  match World.parserModule w with
  | ParserLoaded => World.parse w dialect raw
  | _ => None
  end.

Definition scanSql (w : World.t) : SqlState.t :=
  scanSqlFiles columnSchema (construct w) w true true.

(** The module is imported on first use; when neither way of loading it
    works the process ends.  The result says whether there is a [Parser]. *)
Definition initializeParser (w : World.t) : outcome bool :=
  match World.parserModule w with
  | ParserLoaded => Returned true
  | ParserNotExported => Returned false
  | ModuleNotFound => Exited 1
  end.

Definition extractResources (w : World.t) : outcome (list Resource.t) :=
  andThen (initializeParser w) (fun _ =>
  Returned (SqlState.resources (scanSql w))).

Definition extractProjectMetadata (w : World.t) : outcome ProjectMetadata.t :=
  Returned (World.projectMetadata w).

(** [Promise.all] of the three promises, each with its [.catch]. *)
Definition generateMCPManifest (w : World.t) : outcome Manifest.t :=
  andThen (catch (extractTools w) []) (fun tools =>
  andThen (catch (extractResources w) []) (fun resources =>
  andThen (catch (extractProjectMetadata w) (World.projectMetadata w))
    (fun projectMetadata =>
  Returned (assemble tools resources projectMetadata)))).

End Cli.

(** ** Sample projects *)

Module Sample.

Definition byId : Signature.t :=
  Signature.mk [ParameterDeclaration.mk "id" "string" false] "Promise<User>" [].

Definition byEmail : Signature.t :=
  Signature.mk [ParameterDeclaration.mk "email" "string" false] "Promise<User>" [].

(** [export function getUserById(id: string)], declared twice. *)
Definition getUserById : FunctionDeclaration.t :=
  FunctionDeclaration.mk (Some "getUserById") true byId.
Definition getUserByIdAgain : FunctionDeclaration.t :=
  FunctionDeclaration.mk (Some "getUserById") true byEmail.

(** [export class UserService { public getUser(id: string) ...; saveUser(...) }] *)
Definition getUser : MethodDeclaration.t :=
  MethodDeclaration.mk "getUser" [PublicKeyword] byId.
Definition saveUser : MethodDeclaration.t :=
  MethodDeclaration.mk "saveUser" [AsyncKeyword] byEmail.
Definition UserService : ClassDeclaration.t :=
  ClassDeclaration.mk true [getUser; saveUser].

Definition servicePath : string := "src/services/userService.ts".

Definition functionsFile : SourceFile.t :=
  SourceFile.mk "/project/src/services/userService.ts"
    [getUserById; getUserByIdAgain] [] [].

Definition classFile : SourceFile.t :=
  SourceFile.mk "/project/src/services/userService.ts" [] [] [UserService].

Definition idColumn : Column.t :=
  Column.mk "id" (Some (ColumnType.mk (Some "int") None))
    (Some (ColumnOptions.mk true true true None)).

(** A column for which the grammar produced no type. *)
Definition untypedColumn : Column.t := Column.mk "total" None None.

Definition totalColumn : Column.t :=
  Column.mk "total" (Some (ColumnType.mk (Some "numeric") None)) None.

Definition table (name : string) (cols : list (option Column.t)) : option Table.t :=
  Some (Table.mk (Some name) (Some cols) None None).

Definition schemaPath : string := "db/schema.sql".
Definition schemaText : string := "CREATE TABLE users (id INT); CREATE TABLE orders (total NUMERIC);".

(** A parser for which [mysql] reads the file but leaves the second table
    broken ([brokenColumn] is the broken entry of its column list), and
    [postgresql] reads it in full.  These outputs are chosen to reach the
    branches of the dialect loop; they are not outputs of the parser
    library itself. *)
Definition parseWith (brokenColumn : option Column.t) (dialect raw : string)
  : option (list (option ParsedSql.t)) :=
  if String.eqb dialect "mysql" then
    Some [Some (ParsedSql.mk
                  (Some [table "users" [Some idColumn];
                         table "orders" [brokenColumn]]))]
  else if String.eqb dialect "postgresql" then
    Some [Some (ParsedSql.mk
                  (Some [table "users" [Some idColumn];
                         table "orders" [Some totalColumn]]))]
  else None.

(** A parser that reads the file under [mysql]. *)
Definition parseMysql (dialect raw : string) : option (list (option ParsedSql.t)) :=
  if String.eqb dialect "mysql" then
    Some [Some (ParsedSql.mk (Some [table "users" [Some idColumn]]))]
  else None.

Definition world (projectOk : bool) (sourceFile : SourceFile.t)
    (parse : string -> string -> option (list (option ParsedSql.t))) : World.t :=
  World.mk projectOk (fun _ => projectOk) [servicePath]
    (fun filePath => if String.eqb filePath servicePath then Some sourceFile else None)
    ParserLoaded [schemaPath]
    (fun file => if String.eqb file schemaPath then Some schemaText else None)
    parse (fun _ => Some "2024-01-01T00:00:00.000Z")
    (fun _ => true) (fun filePath => filePath)
    (ProjectMetadata.mk "sample" "1.0.0" "" []).

(** Two exported functions of one name. *)
Definition overloads : World.t := world true functionsFile parseMysql.

(** An exported class with a public and an unmarked method. *)
Definition service : World.t := world true classFile parseMysql.

(** No project can be constructed; the SQL side is in order. *)
Definition noProject : World.t := world false functionsFile parseMysql.

(** The [mysql] attempt breaks on the second table: on a column without a
    type, or on a hole in the column list. *)
Definition untyped : World.t := world true functionsFile (parseWith (Some untypedColumn)).
Definition hole : World.t := world true functionsFile (parseWith None).

End Sample.

(** ** Project metadata

    [extractProjectMetadata] as a function of what it reads: the name of the
    working directory and the parsed package file ([None] when the file is
    missing, unreadable or no JSON object).  Fields hold strings; the two
    dependency tables map package names to version texts. *)

Module PackageJson.
Record t := mk {
  name : option string;
  version : option string;
  description : option string;
  dependencies : option (gmap string string);
  devDependencies : option (gmap string string)
}.
End PackageJson.

(** [value || fallback] on an optional string. *)
Definition orElse (value : option string) (fallback : string) : string :=
  match value with
  | Some v => if truthy v then v else fallback
  | None => fallback
  end.

(** [{ ...dependencies, ...devDependencies }]: a development entry replaces
    the entry of the same name. *)
Definition mergedDependencies (packageJson : PackageJson.t) : gmap string string :=
  default ∅ (PackageJson.devDependencies packageJson)
  ∪ default ∅ (PackageJson.dependencies packageJson).

(** The dependency looked at and the framework pushed, one pair per [if]. *)
Definition frameworkTable : list (string * string) :=
  [ ("react", "React"); ("vue", "Vue"); ("angular", "Angular");
    ("express", "Express"); ("nestjs", "NestJS"); ("next", "Next.js") ].

(** [metadata.dependencies.key] as a condition. *)
Definition dependsOn (deps : gmap string string) (key : string) : bool :=
  match deps !! key with
  | Some v => truthy v
  | None => false
  end.

Module Metadata.

Definition extractProjectMetadata (cwdName : string) (packageJson : option PackageJson.t)
  : ProjectMetadata.t :=
  let dependencies := default ∅ (mergedDependencies <$> packageJson) in
  ProjectMetadata.mk
    (orElse (packageJson ≫= PackageJson.name) cwdName)
    (orElse (packageJson ≫= PackageJson.version) "unknown")
    (orElse (packageJson ≫= PackageJson.description) "")
    (snd <$> filter (fun entry : string * string => dependsOn dependencies entry.1)
               frameworkTable).

End Metadata.

(** ** Statistics of the manifest: tools by category

    The [reduce] that groups the tools, then [Object.entries] with the sizes
    of the groups.  A category that names a property inherited from
    [Object.prototype] finds that property instead of a group, and the
    [push] on it throws ([None]).  Categories are never array indices. *)

Definition categoryOf (tool : Tool.t) : string :=
  if truthy (Tool.category tool) then Tool.category tool else "general".

Fixpoint pushInto (category : string) (tool : Tool.t)
    (acc : list (string * list Tool.t)) : list (string * list Tool.t) :=
  match acc with
  | [] => []
  | (c, items) :: rest =>
      if String.eqb c category then (c, items ++ [tool]) :: rest
      else (c, items) :: pushInto category tool rest
  end.

Definition groupStep (acc : option (list (string * list Tool.t))) (tool : Tool.t)
  : option (list (string * list Tool.t)) :=
  groups ← acc;
  let category := categoryOf tool in
  if bool_decide (category ∈ keys groups) then Some (pushInto category tool groups)
  else if bool_decide (category ∈ objectPrototypeKeys) then None
  else Some (groups ++ [(category, [tool])]).

Definition groupByCategory (tools : list Tool.t) : option (list (string * list Tool.t)) :=
  foldl groupStep (Some []) tools.

Definition toolsByCategory (tools : list Tool.t) : option (list (string * nat)) :=
  (fun groups : list (string * list Tool.t) =>
     (fun entry : string * list Tool.t => (entry.1, length entry.2)) <$> groups)
    <$> groupByCategory tools.

(** ** The awaits on the glob

    [World.tsFiles] and [World.sqlFiles] are what the globs of the two
    scanners resolve to, and [Lib.generateMCPManifest] and
    [Cli.generateMCPManifest] above are the runs in which every glob
    resolves.  The promise of a glob can also reject (a directory that
    cannot be read).  [Globs.t] says which of the four awaits resolve: the
    glob at the head of each scanner, and the two globs counted for
    [filesProcessed] when the manifest is built, after [Promise.all] and
    outside every [catch]. *)

Module Globs.
Record t := mk {
  tsFiles : bool;      (* [fg] of [extractTools] *)
  sqlFiles : bool;     (* [fg] of [extractResources] *)
  typescript : bool;   (* [fg] of [filesProcessed.typescript] *)
  sql : bool           (* [fg] of [filesProcessed.sql] *)
}.
End Globs.

(** [await fg(...)] followed by the rest: a rejection is thrown at the
    await, and the rest does not run. *)
Definition awaitGlob {A : Type} (resolves : bool) (rest : outcome A) : outcome A :=
  if resolves then rest else Thrown.

(** In [extractTools] of both variants the project is built before the glob
    is awaited; in [extractResources] of the command line the glob is
    awaited before the parser module is loaded, so a glob that rejects
    keeps [initializeParser] from running. *)
Module LibRun.

Definition extractTools (g : Globs.t) (w : World.t) : outcome (list Tool.t) :=
  if World.newProject w true then
    awaitGlob (Globs.tsFiles g) (Returned (scanFiles Lib.variant w false))
  else Thrown.

Definition extractResources (g : Globs.t) (w : World.t) : outcome (list Resource.t) :=
  awaitGlob (Globs.sqlFiles g) (Returned (SqlState.resources (Lib.scanSql w))).

Definition generateMCPManifest (g : Globs.t) (w : World.t) : outcome Manifest.t :=
  andThen (extractTools g w) (fun tools =>
  andThen (extractResources g w) (fun resources =>
  andThen (Lib.extractProjectMetadata w) (fun projectMetadata =>
  awaitGlob (Globs.typescript g)
    (awaitGlob (Globs.sql g)
       (Returned (assemble tools resources projectMetadata)))))).

End LibRun.

Module CliRun.

Definition extractTools (g : Globs.t) (w : World.t) : outcome (list Tool.t) :=
  if World.newProject w (World.tsconfigExists w) || World.newProject w false then
    awaitGlob (Globs.tsFiles g)
      (if Nat.eqb (length (World.tsFiles w)) 0 then Returned []
       else Returned (scanFiles Cli.variant w true))
  else Thrown.

Definition extractResources (g : Globs.t) (w : World.t) : outcome (list Resource.t) :=
  awaitGlob (Globs.sqlFiles g)
    (andThen (Cli.initializeParser w) (fun _ =>
     Returned (SqlState.resources (Cli.scanSql w)))).

Definition generateMCPManifest (g : Globs.t) (w : World.t) : outcome Manifest.t :=
  andThen (catch (extractTools g w) []) (fun tools =>
  andThen (catch (extractResources g w) []) (fun resources =>
  andThen (catch (Cli.extractProjectMetadata w) (World.projectMetadata w))
    (fun projectMetadata =>
  awaitGlob (Globs.typescript g)
    (awaitGlob (Globs.sql g)
       (Returned (assemble tools resources projectMetadata)))))).

End CliRun.

(** ** Vocabulary for the properties *)

(** A text of ASCII characters only. *)
Definition asciiChar (c : ascii) : bool := Nat.ltb (nat_of_ascii c) 128.

Fixpoint asciiText (s : string) : bool :=
  match s with
  | EmptyString => true
  | String c s' => asciiChar c && asciiText s'
  end.

(** [obj[key]] on the own properties of an object. *)
Fixpoint getProp {V : Type} (obj : list (string * V)) (key : string) : option V :=
  match obj with
  | [] => None
  | (k, v) :: rest => if String.eqb k key then Some v else getProp rest key
  end.

(** The name groups of [guessDescription] below the fetch group, with the
    text put before and after the suffix.  The alternative [getAll] of the
    list group is left out: the fetch group takes every such name. *)
Definition describeGroups : list (list string * (string * string)) :=
  [ (createPrefixes, ("Create a new ", " record"));
    (updatePrefixes, ("Update an existing ", " record"));
    (deletePrefixes, ("Delete a ", " record"));
    (["list"], ("List all ", " records"));
    (searchPrefixes, ("Search and filter ", " records"));
    (validatePrefixes, ("Validate ", " data")) ].

(** The path fragments [categorizeFunction] looks for, and what it answers
    for a path or for a name. *)
Definition pathMarkers : list string :=
  [ "/api/"; "/routes/"; "/utils/"; "/helpers/"; "/services/"; "/models/";
    "/controllers/"; "/middleware/" ].

Definition hasPathMarker (filePath : string) : bool :=
  existsb (JS.includes filePath) pathMarkers.

Definition pathCategories : list string :=
  ["api"; "utility"; "service"; "model"; "controller"; "middleware"].

Definition nameCategories : list (list string * string) :=
  [ (fetchPrefixes, "data-access"); (createPrefixes, "data-creation");
    (updatePrefixes, "data-modification"); (deletePrefixes, "data-deletion");
    (validatePrefixes, "validation"); (authPrefixes, "authentication") ].

Definition categories : list string :=
  pathCategories
  ++ [ "data-access"; "data-creation"; "data-modification"; "data-deletion";
       "validation"; "authentication"; "general" ].

(** The words at the start of a name that the Symbol Filter rejects. *)
Definition rejectedPrefixes : list string :=
  [ "test"; "spec"; "mock"; "stub"; "helper"; "util"; "internal"; "private";
    "constructor"; "init" ].

(** A string literal of the type language, and a union of such literals. *)
Definition quoted (value : string) : string :=
  String RegExp.dquote (value +:+ String RegExp.dquote "").

Definition unionOf (values : list string) : string := JS.join " | " (quoted <$> values).

Definition quoteFree (value : string) : bool := negb (JS.includes value (String RegExp.dquote "")).

(** No line terminator in the text. *)
Fixpoint oneLine (s : string) : bool :=
  match s with
  | EmptyString => true
  | String c s' => RegExp.isDot c && oneLine s'
  end.

(** ** More sample projects *)

Module Demo.

(** [export default function (id: string) ...],
    [export const listUsers = async (page: number) => ...] and
    [export const limit = 10]. *)
Definition unnamed : FunctionDeclaration.t := FunctionDeclaration.mk None true Sample.byId.
Definition listUsers : VariableDeclaration.t :=
  VariableDeclaration.mk "listUsers" true (Some ArrowFunction).
Definition limit : VariableDeclaration.t :=
  VariableDeclaration.mk "limit" true (Some OtherExpression).

Definition bindingFile : SourceFile.t :=
  SourceFile.mk "/project/src/services/userService.ts" [unnamed] [listUsers; limit] [].

Definition bindings : World.t := Sample.world true bindingFile Sample.parseMysql.

(** [function update(id: string, email?: string, role: "admin" | "user")],
    with a documentation block. *)
Definition roleUnion : string := unionOf ["admin"; "user"].

Definition updateSignature : Signature.t :=
  Signature.mk
    [ ParameterDeclaration.mk "id" "string" false;
      ParameterDeclaration.mk "email" "string" true;
      ParameterDeclaration.mk "role" roleUnion false ]
    "Promise<User>"
    [ JSDoc.mk (TextComment "Change a user.")
        [JSDocTag.mk "example" (TextComment "updateUser(id)")] ].

Definition updateUser : FunctionDeclaration.t :=
  FunctionDeclaration.mk (Some "updateUser") true updateSignature.

(** A package file with a framework in each table. *)
Definition packageJson : PackageJson.t :=
  PackageJson.mk (Some "shop") None (Some "")
    (Some {[ "react" := "^18.2.0"; "express" := "^4.18.0" ]})
    (Some {[ "express" := ""; "next" := "14.0.0"; "@nestjs/core" := "10.0.0" ]}).

(** The descriptor of the table [users] of the sample schema, as read under
    [postgresql]. *)
Definition usersTable : Resource.t :=
  Resource.mk "users"
    [("id", ColumnSchema.mk (Some "int") false true true None None)] [] []
    "db/schema.sql" "postgresql" "2024-01-01T00:00:00.000Z".

(** A schema file that no dialect reads. *)
Definition unparsable : World.t := Sample.world true Sample.functionsFile (fun _ _ => None).

End Demo.

(** ** Vocabulary for the dialect loop *)

Section Attempts.
Variable columnSchema : Column.t -> option ColumnSchema.t.
Variable construct : string -> string -> option (list (option ParsedSql.t)).
Variable w : World.t.

(** What the [try] block of one dialect pushes for a file, and whether it
    reaches its end. *)
Definition attemptOf (file raw dialect : string) : list Resource.t * bool :=
  match construct dialect raw with
  | None => ([], false)
  | Some results => processTables columnSchema w file dialect (tablesOf results) []
  end.

(** The elements of a list up to and including the first that satisfies
    the test. *)
Fixpoint upToFirst (test : string -> bool) (ds : list string) : list string :=
  match ds with
  | [] => []
  | d :: rest => d :: (if test d then [] else upToFirst test rest)
  end.

(** The dialects under which a file is attempted. *)
Definition attempted (file raw : string) (ds : list string) : list string :=
  upToFirst (fun dialect => (attemptOf file raw dialect).2) ds.

(** The files that reach the dialect loop: the ones that are there (where
    that is tested), can be read and are not blank (where that is tested). *)
Definition scanned (checkExists skipBlank : bool) (file : string) : bool :=
  (negb checkExists || World.existsSync w file)
  && match World.readFileSync w file with
     | Some raw => negb skipBlank || truthy (JS.trim raw)
     | None => false
     end.

(** The descriptor [r] stems from the table [table] that the dialect of [r]
    reads in the text [raw] of [file]. *)
Definition stemsFrom (r : Resource.t) (file raw : string) (table : Table.t) : Prop :=
  World.readFileSync w file = Some raw
  ∧ (∃ results, construct (Resource.dialect r) raw = Some results
                ∧ Some table ∈ tablesOf results)
  ∧ Table.name table = Some (Resource.name r)
  ∧ Resource.file r = World.relative w file
  ∧ World.statMtime w file = Some (Resource.lastModified r).

End Attempts.

(** The version text under which a package is declared: the entry of the
    development table when there is one, else the entry of the other. *)
Definition declared (packageJson : PackageJson.t) (key : string) : option string :=
  match PackageJson.devDependencies packageJson ≫= (fun table => table !! key) with
  | Some v => Some v
  | None => PackageJson.dependencies packageJson ≫= (fun table => table !! key)
  end.

(** The number of tools of a category. *)
Definition countOf (category : string) (tools : list Tool.t) : nat :=
  length (filter (fun tool => Tool.category tool = category) tools).

(** * Properties *)

(** Membership in an explicit list. *)
Ltac in_list := repeat (first [by left | right]).

(** The alternatives of a membership in an explicit list, one goal each. *)
Ltac split_alternatives H :=
  repeat (apply elem_of_cons in H as [H|H]); [..|by apply elem_of_nil in H].

(** ** Case folding and anchored alternations *)

Lemma lower_upper c : JS.toLowerCaseChar (JS.toUpperCaseChar c) = JS.toLowerCaseChar c.
Proof. by destruct c as [[] [] [] [] [] [] [] []]. Qed.

Lemma upper_lower c : JS.toUpperCaseChar (JS.toLowerCaseChar c) = JS.toUpperCaseChar c.
Proof. by destruct c as [[] [] [] [] [] [] [] []]. Qed.

(** Comparing upper-case images is comparing lower-case images. *)
Lemma eqCI_lower a b :
  JS.eqCI a b = Ascii.eqb (JS.toLowerCaseChar a) (JS.toLowerCaseChar b).
Proof.
  unfold JS.eqCI.
  destruct (Ascii.eqb_spec (JS.toUpperCaseChar a) (JS.toUpperCaseChar b)) as [E|E];
    destruct (Ascii.eqb_spec (JS.toLowerCaseChar a) (JS.toLowerCaseChar b)) as [F|F];
    try done.
  - destruct F. by rewrite <- (lower_upper a), <- (lower_upper b), E.
  - destruct E. by rewrite <- (upper_lower a), <- (upper_lower b), F.
Qed.


(** ** Name Classifier *)




(** ** Type Normalizer *)





(** C9.  Whenever a type text normalizes to one of the primitive kinds,
    normalizing that kind again gives the same kind (with no description and
    no enumeration), in both variants. *)
Theorem normalize_idempotent_on_primitives (typeText kind : string) :
  TypeInfo.type (Lib.parseTypeScriptType typeText) = Tag kind →
  kind ∈ primitiveKinds →
  TypeInfo.type (Lib.parseTypeScriptType kind)
  = TypeInfo.type (Lib.parseTypeScriptType typeText)
  ∧ Lib.parseTypeScriptType kind = TypeInfo.mk (Tag kind) None None
  ∧ Cli.parseTypeScriptType kind = TypeInfo.mk (Tag kind) None None.
Proof.
  intros -> Hkind. unfold primitiveKinds in Hkind.
  repeat (apply elem_of_cons in Hkind as [->|Hkind]); [by vm_compute..|].
  by apply elem_of_nil in Hkind.
Qed.

(** C9, at [Date], whose kind is [string]. *)
Lemma normalize_idempotent_witness :
  TypeInfo.type (Lib.parseTypeScriptType "Date") = Tag "string"
  ∧ Lib.parseTypeScriptType "string" = TypeInfo.mk (Tag "string") None None.
Proof.
  split; [reflexivity|].
  apply (normalize_idempotent_on_primitives "Date" "string"); [reflexivity|].
  unfold primitiveKinds. in_list.
Defined.

(** C7.  The library variant has no guard for the empty text: the kind it
    returns for it is the empty string, not [any]. *)
Theorem normalize_empty_text_library :
  Lib.parseTypeScriptType "" = TypeInfo.mk (Tag "") None None
  ∧ TypeInfo.type (Lib.parseTypeScriptType "") ≠ Tag "any".
Proof. split; [reflexivity|discriminate]. Qed.

(** The command-line variant has the guard. *)
Lemma normalize_empty_text_cli :
  Cli.parseTypeScriptType "" = TypeInfo.mk (Tag "any") None None.
Proof. reflexivity. Qed.

(** ** Source Scanner: the loops as a filter followed by first occurrences *)

Section ScannerFacts.
Variable V : Variant.t.
Variable w : World.t.

Lemma stepCandidate_eligible st c :
  stepCandidate V w st c
  = if eligible V c && negb (bool_decide (candidateKey c ∈ ScanState.processedFunctions st))
    then ScanState.mk (ScanState.tools st ++ [toolOf V w c])
           ({[candidateKey c]} ∪ ScanState.processedFunctions st)
    else st.
Proof.
  unfold stepCandidate, processFunction, eligible, toolOf, candidateKey, candidateName.
  destruct (Variant.skipAnonymous V && _); [done|]. simpl.
  destruct (isValidToolFunction _ _); [|done]. simpl.
  destruct (exportStatus _); [|done]. simpl.
  by case_bool_decide.
Qed.

Lemma fold_candidates cs st :
  ScanState.tools (foldl (stepCandidate V w) st cs)
  = ScanState.tools st
    ++ (toolOf V w <$> firstOccurrences (ScanState.processedFunctions st)
                         (filter (eligible V) cs)).
Proof.
  revert st. induction cs as [|c cs IH]; intros st; simpl.
  { by rewrite app_nil_r. }
  rewrite IH, stepCandidate_eligible, filter_cons.
  destruct (decide (eligible V c)) as [He|He].
  - apply Is_true_true in He. rewrite He. simpl.
    case_bool_decide; simpl; [done|].
    by rewrite <- app_assoc.
  - apply Is_true_false in He. by rewrite He.
Qed.

Lemma processFile_candidates ce st filePath :
  processFile V w ce st filePath
  = foldl (stepCandidate V w) st (candidatesOf w ce filePath).
Proof.
  unfold processFile, candidatesOf.
  destruct (ce && _); [done|].
  destruct (World.addSourceFileAtPath w filePath) as [sf|]; [|done].
  generalize (allFunctions sf). intros fns. revert st.
  induction fns as [|fn fns IH]; intros st; [done|]. simpl. by rewrite IH.
Qed.

Lemma fold_files ce files st :
  foldl (processFile V w ce) st files
  = foldl (stepCandidate V w) st (flat_map (candidatesOf w ce) files).
Proof.
  revert st. induction files as [|f files IH]; intros st; [done|]. simpl.
  by rewrite foldl_app, IH, processFile_candidates.
Qed.

(** The scanner emits the first occurrences of the eligible candidates. *)
Lemma scanFiles_emitted ce :
  scanFiles V w ce = toolOf V w <$> emitted V w ce.
Proof.
  unfold scanFiles, emitted, candidates. by rewrite fold_files, fold_candidates.
Qed.

End ScannerFacts.

Lemma firstOccurrences_sound seen cs c :
  c ∈ firstOccurrences seen cs → c ∈ cs ∧ candidateKey c ∉ seen.
Proof.
  revert seen. induction cs as [|c' cs IH]; intros seen; simpl.
  { by intros ?%elem_of_nil. }
  case_bool_decide as Hseen.
  - intros [??]%IH. split; [by right|done].
  - intros [->|[? Hnot]%IH]%elem_of_cons; [by split; [left|]|].
    split; [by right|]. intros ?. apply Hnot, elem_of_union. by right.
Qed.

Lemma firstOccurrences_NoDup seen cs :
  NoDup (candidateKey <$> firstOccurrences seen cs).
Proof.
  revert seen. induction cs as [|c cs IH]; intros seen; simpl; [constructor|].
  case_bool_decide; [done|]. rewrite fmap_cons. constructor; [|done].
  intros (c' & Hkey & [_ Hnot]%firstOccurrences_sound)%list_elem_of_fmap.
  apply Hnot, elem_of_union. left. by apply elem_of_singleton.
Qed.

(** Of the candidates with one key, the first is kept and no other. *)
Lemma firstOccurrences_class seen cs k :
  filter (λ c, candidateKey c = k) (firstOccurrences seen cs)
  = if bool_decide (k ∈ seen) then []
    else take 1 (filter (λ c, candidateKey c = k) cs).
Proof.
  revert seen. induction cs as [|c cs IH]; intros seen; simpl.
  { by case_bool_decide. }
  rewrite (filter_cons _ c cs).
  case_bool_decide as Hseen.
  - rewrite IH. case_bool_decide as Hk; [done|].
    rewrite decide_False; [done|]. by intros <-.
  - rewrite filter_cons, IH.
    assert (k ∈ {[candidateKey c]} ∪ seen ↔ candidateKey c = k ∨ k ∈ seen) as Hunion.
    { rewrite elem_of_union, elem_of_singleton. intuition congruence. }
    destruct (decide (candidateKey c = k)) as [Heq|Hne].
    + rewrite (bool_decide_eq_true_2 (k ∈ {[candidateKey c]} ∪ seen))
        by (apply Hunion; auto).
      rewrite (bool_decide_eq_false_2 (k ∈ seen)) by (by rewrite <- Heq). done.
    + destruct (decide (k ∈ seen)) as [Hk|Hk].
      * rewrite (bool_decide_eq_true_2 (k ∈ {[candidateKey c]} ∪ seen))
          by (apply Hunion; auto).
        by rewrite (bool_decide_eq_true_2 (k ∈ seen)).
      * rewrite (bool_decide_eq_false_2 (k ∈ {[candidateKey c]} ∪ seen))
          by (rewrite Hunion; tauto).
        by rewrite (bool_decide_eq_false_2 (k ∈ seen)).
Qed.

Lemma NoDup_fmap_inj_on {A B} (f : A → B) (l : list A) x y :
  NoDup (f <$> l) → x ∈ l → y ∈ l → f x = f y → x = y.
Proof.
  induction l as [|a l IH]; [by intros _ ?%elem_of_nil|].
  rewrite fmap_cons. intros [Hnot Hnd]%NoDup_cons.
  intros [->|Hx]%elem_of_cons [->|Hy]%elem_of_cons Heq; auto.
  - destruct Hnot. rewrite Heq. by apply list_elem_of_fmap_2.
  - destruct Hnot. rewrite <- Heq. by apply list_elem_of_fmap_2.
Qed.

Lemma candidates_path w ce c :
  c ∈ candidates w ce → candidatePath c ∈ World.tsFiles w.
Proof.
  unfold candidates. rewrite list_elem_of_In, in_flat_map.
  intros (p & Hp%list_elem_of_In & Hc%list_elem_of_In).
  unfold candidatesOf in Hc. destruct (ce && _); [by apply elem_of_nil in Hc|].
  destruct (World.addSourceFileAtPath w p); [|by apply elem_of_nil in Hc].
  apply list_elem_of_fmap in Hc as (fn & -> & _). done.
Qed.

Lemma emitted_eligible V w ce c :
  c ∈ emitted V w ce → c ∈ candidates w ce ∧ eligible V c = true.
Proof.
  unfold emitted. intros [Hc _]%firstOccurrences_sound.
  apply list_elem_of_filter in Hc as [He Hc]. split; [done|].
  by apply Is_true_true.
Qed.

Lemma toolOf_name V w c : Tool.name (toolOf V w c) = candidateName c.
Proof. unfold toolOf, buildTool. by destruct (document _ _ _ _). Qed.

Lemma toolOf_file V w c :
  Tool.file (toolOf V w c) = World.relative w (candidatePath c).
Proof. unfold toolOf, buildTool. by destruct (document _ _ _ _). Qed.

Lemma filter_fmap_pre {A B} (f : A → B) (P : B → Prop) `{!∀ y, Decision (P y)}
    (l : list A) :
  filter P (f <$> l) = f <$> filter (λ x, P (f x)) l.
Proof.
  induction l as [|x l IH]; [done|].
  rewrite fmap_cons, !filter_cons, IH. by destruct (decide (P (f x))).
Qed.

Lemma filter_ext_elem {A} (P Q : A → Prop) `{!∀ x, Decision (P x)}
    `{!∀ x, Decision (Q x)} (l : list A) :
  (∀ x, x ∈ l → P x ↔ Q x) → filter P l = filter Q l.
Proof.
  induction l as [|x l IH]; intros Hext; [done|].
  rewrite !filter_cons, IH by (intros; apply Hext; by right).
  pose proof (Hext x (list_elem_of_here x l)).
  destruct (decide (P x)), (decide (Q x)); tauto || done.
Qed.

(** Within one file, two keys agree exactly when the names do. *)
Lemma key_same_path p n n' : p +:+ ":" +:+ n = p +:+ ":" +:+ n' ↔ n = n'.
Proof.
  split; [|by intros ->].
  intros H. apply (inj (String.app p)) in H. by apply (inj (String.app ":")) in H.
Qed.

Lemma eligibleNamed_spec V p sf name fn :
  eligibleNamed V sf name fn
  ↔ candidateName (p, sf, fn) = name ∧ eligible V (p, sf, fn).
Proof.
  unfold eligibleNamed, eligible, candidateName, candidateFile, candidateNode. simpl.
  destruct (decide (default "[anonymous]" (Fn.getName fn) = name)) as [<-|Hn].
  - rewrite bool_decide_eq_true_2 by done. simpl. tauto.
  - rewrite bool_decide_eq_false_2 by done. simpl. tauto.
Qed.

Lemma single_file_class V p sf name (fns : list FnNode) :
  filter (λ c, candidateKey c = p +:+ ":" +:+ name)
    (filter (eligible V) ((λ fn, (p, sf, fn) : Candidate) <$> fns))
  = (λ fn, (p, sf, fn) : Candidate) <$> filter (eligibleNamed V sf name) fns.
Proof.
  induction fns as [|fn fns IH]; [done|].
  rewrite fmap_cons, !filter_cons.
  pose proof (eligibleNamed_spec V p sf name fn) as Hspec.
  assert (candidateKey (p, sf, fn) = p +:+ ":" +:+ name
          ↔ candidateName (p, sf, fn) = name) as Hkey
    by apply key_same_path.
  destruct (decide (eligible V (p, sf, fn))) as [He|He];
    destruct (decide (eligibleNamed V sf name fn)) as [Hn|Hn].
  - rewrite filter_cons, decide_True by (apply Hkey, Hspec, Hn).
    by rewrite fmap_cons, IH.
  - rewrite filter_cons, decide_False; [done|]. rewrite Hkey. tauto.
  - tauto.
  - done.
Qed.

(** *** Keys, paths and names *)

Lemma app_nil_string s : "" +:+ s = s.
Proof. reflexivity. Qed.

Lemma app_cons_string c p s : String c p +:+ s = String c (p +:+ s).
Proof. reflexivity. Qed.

Lemma includes_colon_middle p n : JS.includes (p +:+ String ":" n) ":" = true.
Proof.
  induction p as [|c p IH]; rewrite ?app_cons_string, ?app_nil_string.
  { by destruct n. }
  cbn [JS.includes]. rewrite IH. apply orb_true_r.
Qed.

(** Names without a colon (identifiers have none) make the key determine
    the path and the name. *)
Lemma key_inj p n p' n' :
  JS.includes n ":" = false → JS.includes n' ":" = false →
  p +:+ ":" +:+ n = p' +:+ ":" +:+ n' → p = p' ∧ n = n'.
Proof.
  intros Hn Hn'. revert p'. induction p as [|c p IH]; intros [|c' p'] Hkey;
    rewrite ?app_cons_string, ?app_nil_string in Hkey.
  - by injection Hkey as ->.
  - injection Hkey as _ ->. by rewrite includes_colon_middle in Hn.
  - injection Hkey as _ <-. by rewrite includes_colon_middle in Hn'.
  - injection Hkey as -> Hkey. by destruct (IH _ Hkey) as [-> ->].
Qed.

Lemma candidatesOf_path w ce p c : c ∈ candidatesOf w ce p → candidatePath c = p.
Proof.
  unfold candidatesOf. destruct (ce && _); [by intros ?%elem_of_nil|].
  destruct (World.addSourceFileAtPath w p); [|by intros ?%elem_of_nil].
  by intros (fn & -> & _)%list_elem_of_fmap.
Qed.

Lemma filter_nil_elem {A} (P : A → Prop) `{!∀ x, Decision (P x)} (l : list A) :
  (∀ x, x ∈ l → ¬ P x) → filter P l = [].
Proof.
  induction l as [|x l IH]; intros Hall; [done|].
  rewrite filter_cons, decide_False by (apply Hall; left).
  apply IH. intros y Hy. apply Hall. by right.
Qed.

Lemma filter_all_elem {A} (P : A → Prop) `{!∀ x, Decision (P x)} (l : list A) :
  (∀ x, x ∈ l → P x) → filter P l = l.
Proof.
  induction l as [|x l IH]; intros Hall; [done|].
  rewrite filter_cons, decide_True by (apply Hall; left).
  f_equal. apply IH. intros y Hy. apply Hall. by right.
Qed.

(** The candidates of one path, in a glob result without repetition. *)
Lemma candidates_of_path w ce files p :
  NoDup files → p ∈ files →
  filter (λ c, candidatePath c = p) (flat_map (candidatesOf w ce) files)
  = candidatesOf w ce p.
Proof.
  induction files as [|q files IH]; intros Hnd Hp; [by apply elem_of_nil in Hp|].
  apply NoDup_cons in Hnd as [Hq Hnd]. simpl. rewrite filter_app.
  apply elem_of_cons in Hp as [->|Hp].
  - rewrite filter_all_elem by (intros c; apply candidatesOf_path).
    rewrite filter_nil_elem; [by rewrite app_nil_r|].
    intros c Hc Hpath. apply list_elem_of_In, in_flat_map in Hc as (q' & Hq' & Hc).
    apply list_elem_of_In in Hq', Hc. apply candidatesOf_path in Hc. congruence.
  - rewrite filter_nil_elem; [by apply IH|].
    intros c Hc%candidatesOf_path. congruence.
Qed.

Lemma filter_filter_narrow {A} (P E Q : A → Prop) `{!∀ x, Decision (P x)}
    `{!∀ x, Decision (E x)} `{!∀ x, Decision (Q x)} (l : list A) :
  (∀ x, x ∈ l → P x → Q x) →
  filter P (filter E l) = filter P (filter E (filter Q l)).
Proof.
  induction l as [|x l IH]; intros Hall; [done|].
  assert (filter P (filter E l) = filter P (filter E (filter Q l))) as IH'
    by (apply IH; intros y Hy; apply Hall; by right).
  pose proof (Hall x (list_elem_of_here x l)) as Hx.
  rewrite (filter_cons Q). destruct (decide (Q x)) as [Hq|Hq].
  - rewrite !(filter_cons E). destruct (decide (E x)); [|done].
    rewrite !(filter_cons P). by destruct (decide (P x)); rewrite IH'.
  - rewrite (filter_cons E). destruct (decide (E x)); [|done].
    rewrite (filter_cons P). by rewrite decide_False by tauto.
Qed.

(** In any run over distinct paths and names without a colon, the eligible
    functions of one name in one file leave exactly one emitted candidate,
    the first of them. *)
Lemma any_file_class V w p sf name first others :
  NoDup (World.tsFiles w) → p ∈ World.tsFiles w →
  World.addSourceFileAtPath w p = Some sf →
  (∀ c, c ∈ candidates w false → JS.includes (candidateName c) ":" = false) →
  filter (eligibleNamed V sf name) (allFunctions sf) = first :: others →
  filter (λ c, candidatePath c = p ∧ candidateName c = name) (emitted V w false)
  = [(p, sf, first)].
Proof.
  intros Hnd Hp Hadd Hcolon Hocc.
  assert (candidatesOf w false p = (λ fn, (p, sf, fn) : Candidate) <$> allFunctions sf)
    as Hof by (unfold candidatesOf; simpl; by rewrite Hadd).
  assert (first ∈ filter (eligibleNamed V sf name) (allFunctions sf)) as Hfirst
    by (rewrite Hocc; left).
  apply list_elem_of_filter in Hfirst as [Hel Hfirst].
  apply (eligibleNamed_spec V p) in Hel as [Hname _].
  assert (JS.includes name ":" = false) as Hn.
  { rewrite <- Hname. apply Hcolon. unfold candidates.
    apply list_elem_of_In, in_flat_map. exists p. split; [by apply list_elem_of_In|].
    apply list_elem_of_In. rewrite Hof. by apply list_elem_of_fmap_2. }
  assert (∀ c, c ∈ candidates w false →
               candidateKey c = p +:+ ":" +:+ name
               ↔ candidatePath c = p ∧ candidateName c = name) as Hkey.
  { intros c Hc. split; [|by intros [<- <-]].
    apply key_inj; [by apply Hcolon|done]. }
  rewrite (filter_ext_elem _ (λ c, candidateKey c = p +:+ ":" +:+ name)).
  2:{ intros c [Hc _]%emitted_eligible. symmetry. by apply Hkey. }
  unfold emitted. rewrite firstOccurrences_class. simpl.
  rewrite (filter_filter_narrow _ _ (λ c, candidatePath c = p)).
  2:{ intros c Hc Hk. by apply Hkey in Hk as [? _]. }
  unfold candidates. rewrite candidates_of_path by done.
  by rewrite Hof, single_file_class, Hocc.
Qed.

(** C1.  In a run of the Source Scanner that returns:
    - the pairs (file, name) of the descriptors are pairwise distinct, as
      soon as distinct discovered paths have distinct relative paths;
    - the descriptors are those of the emitted candidates, whose pairs of
      discovered path and name are pairwise distinct;
    - of the eligible candidates with one deduplication key, exactly the
      first in discovery order is emitted;
    - when the run is over one file, the eligible functions of one name
      yield exactly one descriptor, built from the first of them;
    - when the run is over any number of distinct paths and no name has a
      colon, the eligible functions of one name in one file yield exactly
      one emitted candidate, the first of them. *)
Theorem dedup_by_file_and_name (w : World.t) (tools : list Tool.t) :
  Lib.extractTools w = Returned tools →
  ((∀ p q, p ∈ World.tsFiles w → q ∈ World.tsFiles w →
           World.relative w p = World.relative w q → p = q) →
   NoDup ((λ tool, (Tool.file tool, Tool.name tool)) <$> tools))
  ∧ tools = toolOf Lib.variant w <$> emitted Lib.variant w false
  ∧ NoDup ((λ c, (candidatePath c, candidateName c)) <$> emitted Lib.variant w false)
  ∧ (∀ key,
       filter (λ c, candidateKey c = key) (emitted Lib.variant w false)
       = take 1 (filter (λ c, candidateKey c = key)
                   (filter (eligible Lib.variant) (candidates w false))))
  ∧ (∀ filePath sourceFile name first others,
       World.tsFiles w = [filePath] →
       World.addSourceFileAtPath w filePath = Some sourceFile →
       filter (eligibleNamed Lib.variant sourceFile name) (allFunctions sourceFile)
       = first :: others →
       filter (λ tool, Tool.name tool = name) tools
       = [buildTool Lib.variant w filePath name first])
  ∧ (∀ filePath sourceFile name first others,
       NoDup (World.tsFiles w) → filePath ∈ World.tsFiles w →
       World.addSourceFileAtPath w filePath = Some sourceFile →
       (∀ c, c ∈ candidates w false → JS.includes (candidateName c) ":" = false) →
       filter (eligibleNamed Lib.variant sourceFile name) (allFunctions sourceFile)
       = first :: others →
       filter (λ c, candidatePath c = filePath ∧ candidateName c = name)
         (emitted Lib.variant w false)
       = [(filePath, sourceFile, first)]).
Proof.
  unfold Lib.extractTools. destruct (World.newProject w true); [|done].
  intros [= <-]. rewrite scanFiles_emitted.
  pose proof (firstOccurrences_NoDup ∅
                (filter (eligible Lib.variant) (candidates w false))) as Hkeys.
  fold (emitted Lib.variant w false) in Hkeys.
  assert (∀ c c', c ∈ emitted Lib.variant w false → c' ∈ emitted Lib.variant w false →
                  candidatePath c = candidatePath c' → candidateName c = candidateName c' →
                  c = c') as Hinj.
  { intros c c' Hc Hc' Hp Hn. apply (NoDup_fmap_inj_on candidateKey _ _ _ Hkeys Hc Hc').
    unfold candidateKey. by rewrite Hp, Hn. }
  split; [|split; [done|split; [|split; [|split]]]].
  5:{ intros p sf name first others. apply any_file_class. }
  - intros Hrel. rewrite <- list_fmap_compose.
    apply NoDup_fmap_2_strong; [|by eapply NoDup_fmap_1].
    intros c c' Hc Hc'. simpl. rewrite !toolOf_name, !toolOf_file. intros [= Hf Hn].
    apply Hinj; [done..| |done].
    apply Hrel; [| |done]; eapply candidates_path, emitted_eligible; eauto.
  - apply NoDup_fmap_2_strong; [|by eapply NoDup_fmap_1].
    intros c c' Hc Hc' [= Hp Hn]. by apply Hinj.
  - intros key. unfold emitted. by rewrite firstOccurrences_class.
  - intros p sf name first others Hfiles Hadd Hocc.
    rewrite filter_fmap_pre.
    rewrite (filter_ext_elem _ (λ c, candidateKey c = p +:+ ":" +:+ name)).
    2:{ intros c [Hc _]%emitted_eligible. rewrite toolOf_name.
        apply candidates_path in Hc. rewrite Hfiles in Hc.
        apply list_elem_of_singleton in Hc. unfold candidateKey. rewrite Hc.
        by rewrite key_same_path. }
    unfold emitted. rewrite firstOccurrences_class. simpl.
    unfold candidates. rewrite Hfiles. simpl. rewrite app_nil_r.
    unfold candidatesOf. simpl. rewrite Hadd.
    rewrite single_file_class, Hocc. simpl. f_equal.
    assert (first ∈ filter (eligibleNamed Lib.variant sf name) (allFunctions sf)) as Hin
      by (rewrite Hocc; left).
    apply list_elem_of_filter in Hin as [Hin _]. unfold eligibleNamed in Hin.
    apply Is_true_true in Hin. rewrite !andb_true_iff in Hin.
    destruct Hin as [[[Hn%bool_decide_eq_true _] _] _]. by subst name.
Qed.

(** C1, on a file that exports two functions named [getUserById]: one
    descriptor, built from the first declaration. *)
Lemma dedup_by_file_and_name_witness :
  NoDup ((λ tool, (Tool.file tool, Tool.name tool))
           <$> scanFiles Lib.variant Sample.overloads false)
  ∧ filter (λ tool, Tool.name tool = "getUserById")
      (scanFiles Lib.variant Sample.overloads false)
    = [buildTool Lib.variant Sample.overloads Sample.servicePath "getUserById"
         (FunctionNode Sample.getUserById)].
Proof.
  destruct (dedup_by_file_and_name Sample.overloads
              (scanFiles Lib.variant Sample.overloads false) eq_refl)
    as (Hunique & _ & _ & _ & Hfirst & _).
  split.
  - apply Hunique. by intros p q _ _ Hpq.
  - apply (Hfirst Sample.servicePath Sample.functionsFile "getUserById"
             (FunctionNode Sample.getUserById) [FunctionNode Sample.getUserByIdAgain]);
      reflexivity.
Defined.

(** ** Source Scanner: class methods *)

(** A method without the export keyword among its modifiers leaves the state
    of the scanner as it is, whatever its class, name and visibility. *)
Lemma method_without_export_keyword V w filePath sf st (m : MethodDeclaration.t) :
  ExportKeyword ∉ MethodDeclaration.modifiers m →
  processFunction V w filePath sf st (MethodNode m) = st.
Proof.
  intros Hm. unfold processFunction.
  destruct (Variant.skipAnonymous V && _); [done|].
  destruct (negb (isValidToolFunction _ _)); [done|].
  unfold exportStatus, MethodDeclaration.hasModifier.
  by rewrite bool_decide_eq_false_2.
Qed.

(** C3.  The public method [getUser] and the unmarked method [saveUser] of an
    exported class are candidates and pass the Symbol Filter, fail the export
    check, and neither variant emits a descriptor for them. *)
Theorem exported_class_methods_are_dropped :
  allFunctions Sample.classFile = [MethodNode Sample.getUser; MethodNode Sample.saveUser]
  ∧ isValidToolFunction "getUser" (SourceFile.getFilePath Sample.classFile) = true
  ∧ isValidToolFunction "saveUser" (SourceFile.getFilePath Sample.classFile) = true
  ∧ exportStatus (MethodNode Sample.getUser) = false
  ∧ exportStatus (MethodNode Sample.saveUser) = false
  ∧ Lib.extractTools Sample.service = Returned []
  ∧ Cli.extractTools Sample.service = Returned [].
Proof. by repeat split. Qed.

(** ** Symbol Filter *)

(** The filter accepts exactly when no check matches. *)
Lemma isValidToolFunction_rejections name path :
  isValidToolFunction name path = true
  ↔ ∀ check, check ∈ rejections name path → check = false.
Proof.
  unfold isValidToolFunction, rejections. split.
  - intros Hvalid check Hcheck.
    repeat (apply elem_of_cons in Hcheck as [->|Hcheck]);
      [..|by apply elem_of_nil in Hcheck];
      repeat (match type of Hvalid with
              | (if ?b then _ else _) = _ => destruct b eqn:?; [discriminate Hvalid|]
              end); done.
  - intros Hall.
    repeat (match goal with
            | |- (if ?b then _ else _) = _ => rewrite (Hall b) by in_list
            end).
    done.
Qed.

Lemma rejectedNames_invalid name path :
  name ∈ rejectedNames → isValidToolFunction name path = false.
Proof.
  unfold rejectedNames. intros H.
  repeat (apply elem_of_cons in H as [->|H]); [done..|by apply elem_of_nil in H].
Qed.

Lemma scanFiles_valid V w ce tool :
  tool ∈ scanFiles V w ce →
  ∃ c, c ∈ candidates w ce ∧ Tool.name tool = candidateName c
       ∧ isValidToolFunction (candidateName c)
           (SourceFile.getFilePath (candidateFile c)) = true.
Proof.
  rewrite scanFiles_emitted.
  intros (c & -> & [Hc He]%emitted_eligible)%list_elem_of_fmap.
  exists c. rewrite toolOf_name. split; [done|split; [done|]].
  unfold eligible in He. rewrite !andb_true_iff in He. by destruct He as [[_ ?] _].
Qed.

(** C8.  Whatever the project and the export status of its symbols, a
    descriptor returned by the Source Scanner (either variant) is not named
    [_helper], [#priv], [testFoo], [mockBar] or [ConstructorInit]; its name
    was accepted by the Symbol Filter for the file it was found in, and none
    of the filter's checks matches it.  For any name and file, one matching
    check is enough for the filter to reject. *)
Theorem filtered_names_never_emitted (w : World.t) (tools : list Tool.t) (tool : Tool.t) :
  Lib.extractTools w = Returned tools ∨ Cli.extractTools w = Returned tools →
  tool ∈ tools →
  (Tool.name tool ∉ rejectedNames)
  ∧ (∃ sourceFile,
       isValidToolFunction (Tool.name tool) (SourceFile.getFilePath sourceFile) = true
       ∧ ∀ check,
           check ∈ rejections (Tool.name tool) (SourceFile.getFilePath sourceFile) →
           check = false)
  ∧ (∀ name path,
       true ∈ rejections name path → isValidToolFunction name path = false).
Proof.
  intros Hrun Htool.
  cut ((Tool.name tool ∉ rejectedNames)
       ∧ (∃ sourceFile,
            isValidToolFunction (Tool.name tool) (SourceFile.getFilePath sourceFile) = true
            ∧ ∀ check,
                check ∈ rejections (Tool.name tool) (SourceFile.getFilePath sourceFile) →
                check = false)).
  { intros [Hname Hfile]. split; [done|split; [done|]].
    intros name path Hmatch.
    destruct (isValidToolFunction name path) eqn:Hvalid; [|done].
    by apply (proj1 (isValidToolFunction_rejections name path) Hvalid) in Hmatch. }
  assert (∃ V ce, tool ∈ scanFiles V w ce) as (V & ce & Hscan).
  { destruct Hrun as [Hrun|Hrun].
    - unfold Lib.extractTools in Hrun. destruct (World.newProject w true); [|done].
      injection Hrun as <-. eauto.
    - unfold Cli.extractTools in Hrun. destruct (_ || _); [|done].
      destruct (Nat.eqb _ _); injection Hrun as <-; [by apply elem_of_nil in Htool|eauto]. }
  apply scanFiles_valid in Hscan as (c & _ & -> & Hvalid). split.
  - intros Hname. by rewrite (rejectedNames_invalid _ _ Hname) in Hvalid.
  - exists (candidateFile c). split; [done|]. by apply isValidToolFunction_rejections.
Qed.

(** C8, at the descriptor of [getUserById]. *)
Lemma filtered_names_never_emitted_witness :
  Tool.name (buildTool Lib.variant Sample.overloads Sample.servicePath "getUserById"
               (FunctionNode Sample.getUserById)) ∉ rejectedNames.
Proof.
  eapply (filtered_names_never_emitted Sample.overloads
            [buildTool Lib.variant Sample.overloads Sample.servicePath "getUserById"
               (FunctionNode Sample.getUserById)]).
  - left. reflexivity.
  - left.
Defined.

(** ** Schema Scanner *)

Section SchemaFacts.
Variable columnSchema : Column.t → option ColumnSchema.t.
Variable construct : string → string → option (list (option ParsedSql.t)).
Variable w : World.t.

Lemma tableStep_push file dialect otable r :
  tableStep columnSchema w file dialect otable = Push r →
  Resource.dialect r = dialect
  ∧ Resource.file r = World.relative w file
  ∧ namedTables [otable] = [Resource.name r].
Proof.
  unfold tableStep, namedTables.
  destruct otable as [table|]; [|done]. simpl.
  destruct (Table.name table) as [name|]; [|done]. simpl.
  destruct (truthy name); [|done]. simpl.
  destruct (_ ≫= _) as [r'|] eqn:Hr; [|done]. intros [= <-].
  repeat (apply bind_Some in Hr as (? & _ & Hr)).
  by injection Hr as <-.
Qed.

Lemma tableStep_skip file dialect otable :
  tableStep columnSchema w file dialect otable = Skip → namedTables [otable] = [].
Proof.
  unfold tableStep, namedTables.
  destruct otable as [table|]; [|done]. simpl.
  destruct (Table.name table) as [name|]; [|done]. simpl.
  destruct (truthy name); [|done]. simpl. by destruct (_ ≫= _).
Qed.

(** What a run of the table loop appends does not depend on what the
    accumulator holds already. *)
Lemma processTables_acc file dialect tables resources :
  processTables columnSchema w file dialect tables resources
  = (resources ++ (processTables columnSchema w file dialect tables []).1,
     (processTables columnSchema w file dialect tables []).2).
Proof.
  revert resources. induction tables as [|t tables IH]; intros resources; simpl.
  { by rewrite app_nil_r. }
  destruct (tableStep columnSchema w file dialect t); simpl.
  - apply IH.
  - rewrite (IH (resources ++ [r])), (IH [r]). simpl. by rewrite <- app_assoc.
  - by rewrite app_nil_r.
Qed.

Lemma processTables_tagged file dialect tables :
  Forall (λ r, Resource.dialect r = dialect ∧ Resource.file r = World.relative w file)
    (processTables columnSchema w file dialect tables []).1.
Proof.
  induction tables as [|t tables IH]; simpl; [constructor|].
  destruct (tableStep columnSchema w file dialect t) eqn:Hstep; simpl.
  - apply IH.
  - rewrite processTables_acc. simpl. constructor; [|apply IH].
    apply tableStep_push in Hstep as (? & ? & _). by split.
  - constructor.
Qed.

Lemma namedTables_cons otable tables :
  namedTables (otable :: tables) = namedTables [otable] ++ namedTables tables.
Proof. unfold namedTables. simpl. by destruct (_ ≫= _). Qed.

(** A table loop that reaches its end has pushed one descriptor per named
    table, in order. *)
Lemma processTables_names file dialect tables :
  (processTables columnSchema w file dialect tables []).2 = true →
  Resource.name <$> (processTables columnSchema w file dialect tables []).1
  = namedTables tables.
Proof.
  induction tables as [|t tables IH]; [done|].
  rewrite namedTables_cons. cbn [processTables].
  destruct (tableStep columnSchema w file dialect t) eqn:Hstep.
  - intros H. by rewrite (tableStep_skip _ _ _ Hstep), IH.
  - apply tableStep_push in Hstep as (_ & _ & ->).
    rewrite processTables_acc. cbn [fst snd]. intros H.
    by rewrite fmap_app, IH.
  - done.
Qed.

Lemma attempt_appends file raw st dialect :
  SqlState.resources st
    `prefix_of` SqlState.resources (attempt columnSchema construct w file raw st dialect).1.
Proof.
  unfold attempt. destruct (construct dialect raw) as [results|]; simpl; [|done].
  rewrite processTables_acc. simpl. by apply prefix_app_r.
Qed.

(** The dialect loop only ever appends to the accumulator. *)
Lemma tryDialects_appends file raw ds st :
  SqlState.resources st
    `prefix_of` SqlState.resources (tryDialects columnSchema construct w file raw ds st).1.
Proof.
  revert st. induction ds as [|d ds IH]; intros st; simpl; [done|].
  pose proof (attempt_appends file raw st d) as Hd.
  destruct (attempt columnSchema construct w file raw st d) as [st' parsed].
  destruct parsed; simpl in *; [done|]. etrans; [exact Hd|apply IH].
Qed.

(** An attempt that reaches the end of its table loop ends the dialect loop. *)
Lemma tryDialects_first_completes file raw d ds st results :
  construct d raw = Some results →
  (processTables columnSchema w file d (tablesOf results) []).2 = true →
  tryDialects columnSchema construct w file raw (d :: ds) st
  = (SqlState.mk
       (SqlState.resources st
        ++ (processTables columnSchema w file d (tablesOf results) []).1)
       (SqlState.attempts st ++ [(file, d)]),
     true).
Proof.
  intros Hparse Hdone. simpl. unfold attempt. rewrite Hparse.
  rewrite processTables_acc, Hdone. done.
Qed.

(** An attempt that throws in its table loop hands what it pushed to the
    next dialect. *)
Lemma tryDialects_first_throws file raw d ds st results pushed :
  construct d raw = Some results →
  processTables columnSchema w file d (tablesOf results) [] = (pushed, false) →
  tryDialects columnSchema construct w file raw (d :: ds) st
  = tryDialects columnSchema construct w file raw ds
      (SqlState.mk (SqlState.resources st ++ pushed)
         (SqlState.attempts st ++ [(file, d)])).
Proof.
  intros Hparse Hthrow. simpl. unfold attempt. rewrite Hparse.
  rewrite processTables_acc, Hthrow. done.
Qed.

End SchemaFacts.

(** The column builders of the two variants on a column without a type:
    [col.type.datatype] of the library throws, [col.type?.datatype] of the
    command line does not. *)
Lemma column_without_type (col : Column.t) :
  Column.type col = None →
  Lib.columnSchema col = None ∧ is_Some (Cli.columnSchema col).
Proof.
  intros Htype. unfold Lib.columnSchema, Cli.columnSchema. rewrite Htype.
  split; [done|by eexists].
Qed.


(** On the same project the command-line variant does what is expected of
    it: mysql is the only dialect asked for, and both tables come out under
    it. *)
Lemma cli_untyped_column_completes :
  SqlState.attempts (Cli.scanSql Sample.untyped) = [(Sample.schemaPath, "mysql")]
  ∧ (fun r => (Resource.name r, Resource.dialect r))
      <$> SqlState.resources (Cli.scanSql Sample.untyped)
    = [("users", "mysql"); ("orders", "mysql")].
Proof. by split. Qed.

(** C10.  When the parser of a dialect reads the file and the table loop
    throws after pushing some descriptors, the dialect loop continues with
    the next dialect on an accumulator that holds them, they are still there
    when the loop ends, and they carry the tag of the failed dialect.  In
    both variants there is a project in which one table of one file comes
    out twice, tagged mysql and postgresql. *)
Theorem partial_attempt_is_kept :
  (∀ columnSchema construct (w : World.t) (st : SqlState.t) (file raw dialect : string)
     (rest : list string) (results : list (option ParsedSql.t))
     (pushed : list Resource.t),
     construct dialect raw = Some results →
     processTables columnSchema w file dialect (tablesOf results) [] = (pushed, false) →
     tryDialects columnSchema construct w file raw (dialect :: rest) st
     = tryDialects columnSchema construct w file raw rest
         (SqlState.mk (SqlState.resources st ++ pushed)
            (SqlState.attempts st ++ [(file, dialect)]))
     ∧ (SqlState.resources st ++ pushed)
         `prefix_of` SqlState.resources
                       (tryDialects columnSchema construct w file raw (dialect :: rest) st).1
     ∧ Forall (λ r, Resource.dialect r = dialect) pushed)
  ∧ (∃ w resources first second,
       Lib.extractResources w = Returned resources
       ∧ first ∈ resources ∧ second ∈ resources
       ∧ Resource.name first = Resource.name second
       ∧ Resource.file first = Resource.file second
       ∧ Resource.dialect first = "mysql" ∧ Resource.dialect second = "postgresql")
  ∧ (∃ w resources first second,
       Cli.extractResources w = Returned resources
       ∧ first ∈ resources ∧ second ∈ resources
       ∧ Resource.name first = Resource.name second
       ∧ Resource.file first = Resource.file second
       ∧ Resource.dialect first = "mysql" ∧ Resource.dialect second = "postgresql").
Proof.
  split; [|split].
  - intros columnSchema construct w st file raw dialect rest results pushed Hparse Hthrow.
    rewrite (tryDialects_first_throws _ _ _ _ _ _ _ _ _ _ Hparse Hthrow).
    split; [done|split].
    + apply (tryDialects_appends columnSchema construct w file raw rest
               (SqlState.mk (SqlState.resources st ++ pushed)
                  (SqlState.attempts st ++ [(file, dialect)]))).
    + pose proof (processTables_tagged columnSchema w file dialect (tablesOf results)) as Htag.
      rewrite Hthrow in Htag. eapply Forall_impl; [exact Htag|]. by intros r [??].
  - exists Sample.untyped.
    destruct (SqlState.resources (Lib.scanSql Sample.untyped))
      as [|first [|second others]] eqn:Hscan; [discriminate Hscan..|].
    exists (first :: second :: others), first, second.
    split; [by rewrite <- Hscan|].
    vm_compute in Hscan. injection Hscan as <- <- _.
    repeat split; try reflexivity; [left|right; left].
  - exists Sample.hole.
    destruct (SqlState.resources (Cli.scanSql Sample.hole))
      as [|first [|second others]] eqn:Hscan; [discriminate Hscan..|].
    exists (first :: second :: others), first, second.
    split; [by rewrite <- Hscan|].
    vm_compute in Hscan. injection Hscan as <- <- _.
    repeat split; try reflexivity; [left|right; left].
Qed.

(** C10, on the schema file whose second table has an untyped column under
    mysql: the descriptor pushed by the mysql attempt stays in front of the
    two of the postgresql attempt. *)
Lemma partial_attempt_is_kept_witness :
  Resource.dialect <$> SqlState.resources
    (tryDialects Lib.columnSchema (World.parse Sample.untyped) Sample.untyped
       Sample.schemaPath Sample.schemaText dialects (SqlState.mk [] [])).1
  = ["mysql"; "postgresql"; "postgresql"].
Proof.
  destruct partial_attempt_is_kept as [Hkept _].
  destruct (processTables Lib.columnSchema Sample.untyped Sample.schemaPath "mysql"
              (tablesOf [Some (ParsedSql.mk
                                 (Some [Sample.table "users" [Some Sample.idColumn];
                                        Sample.table "orders" [Some Sample.untypedColumn]]))])
              []) as [pushed completed] eqn:Hloop.
  assert (completed = false) as -> by (vm_compute in Hloop; congruence).
  destruct (Hkept Lib.columnSchema (World.parse Sample.untyped) Sample.untyped
              (SqlState.mk [] []) Sample.schemaPath Sample.schemaText "mysql"
              ["postgresql"; "sqlite"; "mssql"] _ pushed eq_refl Hloop)
    as (Hnext & _ & _).
  unfold dialects. rewrite Hnext.
  vm_compute in Hloop. injection Hloop as <-. reflexivity.
Defined.

(** ** Pipeline Orchestrator *)

(** C2.  In the library variant a Source Scanner that cannot construct its
    project makes the whole manifest generation fail, although the Schema
    Scanner returns a descriptor. *)
Theorem library_manifest_rejects_without_project :
  Lib.extractTools Sample.noProject = Thrown
  ∧ (Resource.name <$> SqlState.resources (Lib.scanSql Sample.noProject)) = ["users"]
  ∧ Lib.extractResources Sample.noProject
    = Returned (SqlState.resources (Lib.scanSql Sample.noProject))
  ∧ Lib.generateMCPManifest Sample.noProject = Thrown.
Proof. by repeat split. Qed.

(** The same for every project: without a project object there is no
    manifest. *)
Lemma library_manifest_needs_project (w : World.t) :
  World.newProject w true = false → Lib.generateMCPManifest w = Thrown.
Proof. intros H. unfold Lib.generateMCPManifest, Lib.extractTools. by rewrite H. Qed.

(** The command-line variant replaces the output of a scanner that throws by
    the empty list and keeps the other list. *)
Lemma cli_manifest_without_tools (w : World.t) (resources : list Resource.t) :
  Cli.extractTools w = Thrown →
  Cli.extractResources w = Returned resources →
  Cli.generateMCPManifest w
  = Returned (assemble [] resources (World.projectMetadata w)).
Proof. intros Ht Hr. unfold Cli.generateMCPManifest. by rewrite Ht, Hr. Qed.

Lemma cli_manifest_sample :
  ∃ manifest,
    Cli.generateMCPManifest Sample.noProject = Returned manifest
    ∧ Manifest.tools manifest = []
    ∧ ManifestResource.name <$> Manifest.resources manifest = ["users"].
Proof. eexists. by repeat split. Qed.

(** It does not survive a parser module that cannot be loaded: the process
    exits. *)
Lemma cli_manifest_exits_without_parser (w : World.t) :
  World.parserModule w = ModuleNotFound → Cli.generateMCPManifest w = Exited 1.
Proof.
  intros H.
  unfold Cli.generateMCPManifest, Cli.extractResources, Cli.initializeParser,
    Cli.extractTools.
  rewrite H. destruct (_ || _); [|done]. by destruct (Nat.eqb _ _).
Qed.

(** ** Further properties of the Name Classifier *)

Lemma toLowerCase_app a b :
  JS.toLowerCase (a +:+ b) = JS.toLowerCase a +:+ JS.toLowerCase b.
Proof.
  induction a as [|c a IH]; [done|].
  rewrite app_cons_string. cbn [JS.toLowerCase]. by rewrite app_cons_string, IH.
Qed.

(** An alternative matches, ignoring case, what has its letters up to case. *)
Lemma dropPrefixCI_match a p s :
  JS.toLowerCase p = JS.toLowerCase a → JS.dropPrefixCI a (p +:+ s) = Some s.
Proof.
  revert p. induction a as [|c a IH]; intros [|d p] H; try discriminate H; [done|].
  injection H as Hc H. rewrite app_cons_string. cbn [JS.dropPrefixCI].
  rewrite eqCI_lower, Hc, Ascii.eqb_refl. by apply IH.
Qed.

(** It does not match a text whose lower-case form does not start with its
    own. *)
Lemma dropPrefixCI_mismatch a x :
  String.prefix (JS.toLowerCase a) (JS.toLowerCase x) = false →
  JS.dropPrefixCI a x = None.
Proof.
  revert x. induction a as [|c a IH]; intros [|d x]; cbn; try done.
  rewrite eqCI_lower.
  destruct (Ascii.eqb_spec (JS.toLowerCaseChar c) (JS.toLowerCaseChar d)) as [->|Hne].
  - destruct (ascii_dec _ _); [|done]. apply IH.
  - done.
Qed.

(** Deciding an alternation on a name whose prefix is known up to case by
    the equation [H]. *)
Ltac decide_alternation prefix suffix H :=
  cbn [JS.matchAltCI];
  repeat first
    [ rewrite (dropPrefixCI_match _ prefix suffix) by (rewrite H; reflexivity)
    | rewrite (dropPrefixCI_mismatch _ (prefix +:+ suffix))
        by (rewrite toLowerCase_app, H; reflexivity) ].

(** X1.  Below the fetch group, a name of ASCII characters made of a prefix
    of one of the groups create, update, delete, list, search, validate (in
    any case) and a suffix is described by the text of that group around the
    lower-cased suffix, whatever the parameters. *)
Theorem describe_by_group (name prefix suffix : string) (params : list string)
    (group : list string) (before after : string) :
  name = prefix +:+ suffix →
  asciiText name = true →
  (group, (before, after)) ∈ describeGroups →
  JS.toLowerCase prefix ∈ group →
  guessDescription name params = before +:+ JS.toLowerCase suffix +:+ after.
Proof.
  intros -> _ Hgroup Hprefix. unfold describeGroups in Hgroup.
  split_alternatives Hgroup; simplify_eq.
  all: unfold createPrefixes, updatePrefixes, deletePrefixes, searchPrefixes,
         validatePrefixes in Hprefix.
  all: split_alternatives Hprefix.
  all: unfold guessDescription, JS.testAltCI, JS.stripAltCI, fetchPrefixes,
         createPrefixes, updatePrefixes, deletePrefixes, listPrefixes,
         searchPrefixes, validatePrefixes.
  all: decide_alternation prefix suffix Hprefix.
  all: reflexivity.
Qed.

Lemma describe_by_group_witness :
  guessDescription "UpdateUserEmail" ["id"; "email"]
  = "Update an existing useremail record".
Proof.
  apply (describe_by_group "UpdateUserEmail" "Update" "UserEmail" ["id"; "email"]
           updatePrefixes "Update an existing " " record").
  - reflexivity.
  - reflexivity.
  - unfold describeGroups. in_list.
  - unfold updatePrefixes. simpl. in_list.
Defined.

(** X2.  A name of ASCII characters that starts with [getAll] (in any case)
    never reaches the list group: the fetch group strips [get] and describes
    the rest, [all] included (the parameter names are ASCII too). *)
Theorem describe_getAll_is_fetch (name get all suffix : string) (params : list string) :
  name = get +:+ all +:+ suffix →
  asciiText name = true →
  Forall (fun p => asciiText p = true) params →
  JS.toLowerCase get = "get" →
  JS.toLowerCase all = "all" →
  guessDescription name params
  = if existsb (λ p, JS.includes (JS.toLowerCase p) "id") params
    then "Fetch a specific all" +:+ JS.toLowerCase suffix +:+ " by ID"
    else "Fetch all" +:+ JS.toLowerCase suffix +:+ " data".
Proof.
  intros -> _ _ Hget Hall.
  unfold guessDescription, JS.testAltCI, JS.stripAltCI, fetchPrefixes.
  decide_alternation get (all +:+ suffix) Hget.
  simpl. rewrite toLowerCase_app, Hall.
  by destruct (existsb _ params).
Qed.

Lemma describe_getAll_is_fetch_witness :
  guessDescription "getAllUsers" [] = "Fetch allusers data".
Proof.
  apply (describe_getAll_is_fetch "getAllUsers" "get" "All" "Users" []);
    first [reflexivity | constructor].
Defined.

(** The guess is never the empty text. *)
Lemma guessDescription_not_empty name params : guessDescription name params ≠ "".
Proof.
  unfold guessDescription.
  repeat match goal with
         | |- context [if ?b then _ else _] => destruct b
         end; discriminate.
Qed.

(** ** Properties of [categorizeFunction] *)

(** X3.  When the path holds one of the markers the category is one of the
    six path categories and does not depend on the name. *)
Theorem categorize_path_first (name name' filePath : string) :
  hasPathMarker filePath = true →
  categorizeFunction name filePath = categorizeFunction name' filePath
  ∧ categorizeFunction name filePath ∈ pathCategories.
Proof.
  unfold hasPathMarker, pathMarkers, categorizeFunction, pathCategories. simpl.
  destruct (JS.includes filePath "/api/"); [by split; [|in_list]|].
  destruct (JS.includes filePath "/routes/"); [by split; [|in_list]|].
  destruct (JS.includes filePath "/utils/"); [by split; [|in_list]|].
  destruct (JS.includes filePath "/helpers/"); [by split; [|in_list]|].
  destruct (JS.includes filePath "/services/"); [by split; [|in_list]|].
  destruct (JS.includes filePath "/models/"); [by split; [|in_list]|].
  destruct (JS.includes filePath "/controllers/"); [by split; [|in_list]|].
  destruct (JS.includes filePath "/middleware/"); [by split; [|in_list]|].
  done.
Qed.

Lemma categorize_path_first_witness :
  categorizeFunction "getUser" "src/services/userService.ts"
  = categorizeFunction "deleteEverything" "src/services/userService.ts"
  ∧ categorizeFunction "getUser" "src/services/userService.ts" ∈ pathCategories.
Proof. apply categorize_path_first. reflexivity. Defined.

(** The category is always one of the thirteen of the vocabulary. *)
Lemma categorizeFunction_vocabulary (name filePath : string) :
  categorizeFunction name filePath ∈ categories.
Proof.
  unfold categorizeFunction, categories, pathCategories.
  repeat match goal with
         | |- context [if ?b then _ else _] => destruct b
         end; simpl; in_list.
Qed.

(** X4.  Without a marker in the path the name decides: a prefix of one of the
    six name groups (in any case) gives the category of the group, and a name
    that starts with [list], [search] or [filter] is in none of the groups and
    gets the category general. *)
Theorem categorize_by_name (name prefix suffix filePath : string) :
  name = prefix +:+ suffix →
  hasPathMarker filePath = false →
  (∀ group category,
     (group, category) ∈ nameCategories → JS.toLowerCase prefix ∈ group →
     categorizeFunction name filePath = category)
  ∧ (JS.toLowerCase prefix ∈ ["list"; "search"; "filter"] →
     categorizeFunction name filePath = "general").
Proof.
  intros -> Hpath.
  assert (categorizeFunction (prefix +:+ suffix) filePath
          = categorizeFunction (prefix +:+ suffix) "") as Hname.
  { revert Hpath.
    unfold hasPathMarker, pathMarkers, categorizeFunction. simpl.
    repeat (match goal with
            | |- context [JS.includes filePath ?m] => destruct (JS.includes filePath m)
            end; simpl; try discriminate).
    done. }
  rewrite Hname. clear Hname Hpath. split.
  - intros group category Hgroup Hprefix. unfold nameCategories in Hgroup.
    split_alternatives Hgroup; simplify_eq.
    all: unfold fetchPrefixes, createPrefixes, updatePrefixes, deletePrefixes,
           validatePrefixes, authPrefixes in Hprefix.
    all: split_alternatives Hprefix.
    all: unfold categorizeFunction, JS.testAltCI, fetchPrefixes, createPrefixes,
           updatePrefixes, deletePrefixes, validatePrefixes, authPrefixes.
    all: cbn [JS.includes String.prefix orb].
    all: decide_alternation prefix suffix Hprefix.
    all: reflexivity.
  - intros Hprefix. split_alternatives Hprefix.
    all: unfold categorizeFunction, JS.testAltCI, fetchPrefixes, createPrefixes,
           updatePrefixes, deletePrefixes, validatePrefixes, authPrefixes.
    all: cbn [JS.includes String.prefix orb].
    all: decide_alternation prefix suffix Hprefix.
    all: reflexivity.
Qed.

Lemma categorize_by_name_witness :
  categorizeFunction "LoginUser" "src/auth.ts" = "authentication"
  ∧ categorizeFunction "listUsers" "src/users.ts" = "general".
Proof.
  split.
  - destruct (categorize_by_name "LoginUser" "Login" "User" "src/auth.ts" eq_refl eq_refl)
      as [Hgroup _].
    apply (Hgroup authPrefixes); [unfold nameCategories; in_list|].
    unfold authPrefixes. simpl. in_list.
  - destruct (categorize_by_name "listUsers" "list" "Users" "src/users.ts" eq_refl eq_refl)
      as [_ Hgeneral].
    apply Hgeneral. simpl. in_list.
Defined.

(** ** Further properties of the Symbol Filter and the Source Scanner *)

(** A name that starts, in any case, with one of the rejected words fails the
    filter for every file, also when the word only begins a longer one. *)
Lemma rejected_prefix_invalid prefix suffix path :
  JS.toLowerCase prefix ∈ rejectedPrefixes →
  isValidToolFunction (prefix +:+ suffix) path = false.
Proof.
  intros Hprefix. unfold rejectedPrefixes in Hprefix. split_alternatives Hprefix.
  all: unfold isValidToolFunction, JS.testAltCI.
  all: destruct (_ || _); [reflexivity|].
  all: decide_alternation prefix suffix Hprefix.
  all: reflexivity.
Qed.

(** The descriptors of a run of either variant are those of emitted
    candidates. *)
Lemma run_emitted (w : World.t) (tools : list Tool.t) (tool : Tool.t) :
  Lib.extractTools w = Returned tools ∨ Cli.extractTools w = Returned tools →
  tool ∈ tools →
  ∃ V ce c, (V = Lib.variant ∨ V = Cli.variant)
            ∧ c ∈ emitted V w ce ∧ tool = toolOf V w c.
Proof.
  intros Hrun Htool.
  assert (∃ V ce, (V = Lib.variant ∨ V = Cli.variant) ∧ tool ∈ scanFiles V w ce)
    as (V & ce & HV & Hscan).
  { destruct Hrun as [Hrun|Hrun].
    - unfold Lib.extractTools in Hrun. destruct (World.newProject w true); [|done].
      injection Hrun as <-. eauto.
    - unfold Cli.extractTools in Hrun. destruct (_ || _); [|done].
      destruct (Nat.eqb _ _); injection Hrun as <-; [by apply elem_of_nil in Htool|eauto]. }
  rewrite scanFiles_emitted in Hscan.
  apply list_elem_of_fmap in Hscan as (c & -> & Hc). eauto 10.
Qed.

(** X5.  No descriptor of a run (either variant, any project) has a name that
    starts, in any case, with test, spec, mock, stub, helper, util, internal,
    private, constructor or init; names such as [specialOffers], [initials]
    or [utilization] are lost with them. *)
Theorem rejected_prefix_never_emitted (w : World.t) (tools : list Tool.t)
    (tool : Tool.t) (prefix suffix : string) :
  Lib.extractTools w = Returned tools ∨ Cli.extractTools w = Returned tools →
  tool ∈ tools →
  Tool.name tool = prefix +:+ suffix →
  JS.toLowerCase prefix ∉ rejectedPrefixes.
Proof.
  intros Hrun Htool Hname Hprefix.
  destruct (run_emitted w tools tool Hrun Htool) as (V & ce & c & _ & Hc & ->).
  apply emitted_eligible in Hc as [_ He]. rewrite toolOf_name in Hname.
  unfold eligible in He. rewrite !andb_true_iff in He. destruct He as [[_ Hvalid] _].
  by rewrite Hname, (rejected_prefix_invalid _ _ _ Hprefix) in Hvalid.
Qed.

Lemma rejected_prefix_never_emitted_witness :
  JS.toLowerCase "get" ∉ rejectedPrefixes.
Proof.
  apply (rejected_prefix_never_emitted Sample.overloads
           [buildTool Lib.variant Sample.overloads Sample.servicePath "getUserById"
              (FunctionNode Sample.getUserById)]
           (buildTool Lib.variant Sample.overloads Sample.servicePath "getUserById"
              (FunctionNode Sample.getUserById))
           "get" "UserById").
  - left. reflexivity.
  - left.
  - reflexivity.
Defined.

Lemma candidates_node w ce c :
  c ∈ candidates w ce → candidateNode c ∈ allFunctions (candidateFile c).
Proof.
  unfold candidates. rewrite list_elem_of_In, in_flat_map.
  intros (p & _ & Hc%list_elem_of_In).
  unfold candidatesOf in Hc. destruct (ce && _); [by apply elem_of_nil in Hc|].
  destruct (World.addSourceFileAtPath w p); [|by apply elem_of_nil in Hc].
  by apply list_elem_of_fmap in Hc as (fn & -> & ?).
Qed.

Lemma allFunctions_binding sf v :
  VariableNode v ∈ allFunctions sf → functionValued v = true.
Proof.
  unfold allFunctions. rewrite !elem_of_app.
  intros [H|[H|H]]; apply list_elem_of_fmap in H as (x & Hx & Hin); try done.
  injection Hx as <-. apply list_elem_of_filter in Hin as [Hf _].
  by apply Is_true_true.
Qed.

(** X6.  What a run emits, by kind of node: a function declaration only when
    it is exported; a class method only when it has
    the export keyword among its modifiers; a variable only when it is
    exported and initialised with an arrow function or a function expression,
    and then with no parameters, the return type any, no examples and the
    description guessed from the name alone, whatever the function it is
    bound to declares. *)
Theorem emitted_by_kind (w : World.t) (tools : list Tool.t) (tool : Tool.t) :
  Lib.extractTools w = Returned tools ∨ Cli.extractTools w = Returned tools →
  tool ∈ tools →
  ∃ V ce c,
    c ∈ emitted V w ce ∧ tool = toolOf V w c
    ∧ (∀ f, candidateNode c = FunctionNode f →
            FunctionDeclaration.isExported f = true)
    ∧ (∀ m, candidateNode c = MethodNode m →
            ExportKeyword ∈ MethodDeclaration.modifiers m)
    ∧ (∀ v, candidateNode c = VariableNode v →
            functionValued v = true
            ∧ VariableDeclaration.isExported v = true
            ∧ Tool.parameters tool = []
            ∧ Tool.returnType tool = Tag "any"
            ∧ Tool.examples tool = None
            ∧ Tool.description tool = guessDescription (Tool.name tool) []).
Proof.
  intros Hrun Htool.
  destruct (run_emitted w tools tool Hrun Htool) as (V & ce & c & _ & Hc & ->).
  exists V, ce, c. split; [done|split; [done|]].
  destruct (emitted_eligible _ _ _ _ Hc) as [Hcand He].
  unfold eligible in He. rewrite !andb_true_iff in He. destruct He as [_ Hexp].
  split; [|split].
  - intros f Hf. by rewrite Hf in Hexp.
  - intros m Hm. rewrite Hm in Hexp. simpl in Hexp.
    unfold MethodDeclaration.hasModifier in Hexp. by apply bool_decide_eq_true in Hexp.
  - intros v Hv. apply candidates_node in Hcand. rewrite Hv in Hcand, Hexp.
    split; [by eapply allFunctions_binding|split; [done|]].
    unfold toolOf, buildTool. by rewrite Hv.
Qed.

Lemma emitted_by_kind_witness :
  ∃ unnamed listed,
    Lib.extractTools Demo.bindings = Returned [unnamed; listed]
    ∧ ∃ V ce c, c ∈ emitted V Demo.bindings ce ∧ listed = toolOf V Demo.bindings c.
Proof.
  do 2 eexists. split; [reflexivity|].
  destruct (emitted_by_kind Demo.bindings _ _ (or_introl eq_refl)
              (list_elem_of_further _ _ _ (list_elem_of_here _ _)))
    as (V & ce & c & Hc & Htool & _).
  eauto.
Defined.

(** X7.  No descriptor of a run (either variant, any project) has a name
    that starts with an underscore or a hash sign, and none has a name that
    starts with a capital letter when the path of its source file holds the
    word component (in lower case). *)
Theorem private_and_component_names_never_emitted (w : World.t)
    (tools : list Tool.t) (tool : Tool.t)
    (Hrun : Lib.extractTools w = Returned tools ∨ Cli.extractTools w = Returned tools)
    (Htool : tool ∈ tools) :
  ∃ V ce c,
    c ∈ emitted V w ce ∧ tool = toolOf V w c
    ∧ JS.startsWith (Tool.name tool) "_" = false
    ∧ JS.startsWith (Tool.name tool) "#" = false
    ∧ (startsUpper (Tool.name tool) = true ->
       JS.includes (SourceFile.getFilePath (candidateFile c)) "component" = false).
Proof.
  destruct (run_emitted w tools tool Hrun Htool) as (V & ce & c & _ & Hc & ->).
  exists V, ce, c. split; [done|split; [done|]].
  destruct (emitted_eligible _ _ _ _ Hc) as [_ He].
  unfold eligible in He. rewrite !andb_true_iff in He. destruct He as [[_ Hvalid] _].
  rewrite toolOf_name.
  rewrite isValidToolFunction_rejections in Hvalid. unfold rejections in Hvalid.
  assert (JS.startsWith (candidateName c) "_" || JS.startsWith (candidateName c) "#" = false)
    as [? ?]%orb_false_elim by (apply Hvalid; in_list).
  assert (startsUpper (candidateName c)
          && JS.includes (SourceFile.getFilePath (candidateFile c)) "component" = false)
    as Hcomponent by (apply Hvalid; in_list).
  repeat split; try done. intros Hupper. by rewrite Hupper in Hcomponent.
Qed.

Lemma private_and_component_names_never_emitted_witness :
  ∃ V ce c,
    c ∈ emitted V Demo.bindings ce
    ∧ buildTool Lib.variant Demo.bindings Sample.servicePath "listUsers"
        (VariableNode Demo.listUsers) = toolOf V Demo.bindings c.
Proof.
  destruct (private_and_component_names_never_emitted Demo.bindings _
              (buildTool Lib.variant Demo.bindings Sample.servicePath "listUsers"
                 (VariableNode Demo.listUsers))
              (or_introl eq_refl)
              (list_elem_of_further _ _ _ (list_elem_of_here _ _)))
    as (V & ce & c & Hc & Htool & _).
  eauto.
Defined.

(** X8.  The command-line variant never emits a descriptor for an unnamed
    function; the library variant names it [[anonymous]] and goes on, so an
    exported anonymous default function gets a descriptor of that name. *)
Theorem anonymous_only_in_library :
  (∀ w tools tool,
     Cli.extractTools w = Returned tools → tool ∈ tools →
     Tool.name tool ≠ "[anonymous]")
  ∧ (∀ w filePath sourceFile f others,
       World.newProject w true = true →
       World.tsFiles w = [filePath] →
       World.addSourceFileAtPath w filePath = Some sourceFile →
       filter (eligibleNamed Lib.variant sourceFile "[anonymous]")
         (allFunctions sourceFile) = f :: others →
       ∃ tools tool, Lib.extractTools w = Returned tools ∧ tool ∈ tools
                     ∧ Tool.name tool = "[anonymous]").
Proof.
  split.
  - intros w tools tool Hrun Htool Hname.
    unfold Cli.extractTools in Hrun. destruct (_ || _); [|done].
    destruct (Nat.eqb _ _); injection Hrun as <-; [by apply elem_of_nil in Htool|].
    rewrite scanFiles_emitted in Htool.
    apply list_elem_of_fmap in Htool as (c & -> & [_ He]%emitted_eligible).
    rewrite toolOf_name in Hname. unfold eligible in He. rewrite Hname in He.
    done.
  - intros w p sf f others Hproject Hfiles Hadd Hocc.
    exists (scanFiles Lib.variant w false), (toolOf Lib.variant w (p, sf, f)).
    split; [by unfold Lib.extractTools; rewrite Hproject|].
    assert (f ∈ filter (eligibleNamed Lib.variant sf "[anonymous]") (allFunctions sf))
      as Hf by (rewrite Hocc; left).
    apply list_elem_of_filter in Hf as [Hf _].
    apply (eligibleNamed_spec _ p) in Hf as [Hname _].
    split; [|by rewrite toolOf_name].
    rewrite scanFiles_emitted. apply list_elem_of_fmap_2.
    assert ((p, sf, f) ∈ filter (λ c, candidateKey c = p +:+ ":" +:+ "[anonymous]")
                           (emitted Lib.variant w false)) as Hin.
    { unfold emitted. rewrite firstOccurrences_class. simpl.
      unfold candidates. rewrite Hfiles. simpl. rewrite app_nil_r.
      unfold candidatesOf. simpl. rewrite Hadd.
      rewrite single_file_class, Hocc. left. }
    by apply list_elem_of_filter in Hin as [_ ?].
Qed.

Lemma anonymous_only_in_library_witness :
  ∃ tools tool,
    Lib.extractTools Demo.bindings = Returned tools ∧ tool ∈ tools
    ∧ Tool.name tool = "[anonymous]".
Proof.
  destruct anonymous_only_in_library as [_ Hlibrary].
  apply (Hlibrary Demo.bindings Sample.servicePath Demo.bindingFile
           (FunctionNode Demo.unnamed) []); reflexivity.
Defined.

(** ** Parameters as an object *)

Lemma keys_upsert {A : Type} (key : string) (v : A) (obj : list (string * A)) :
  keys (upsert key v obj) = if bool_decide (key ∈ keys obj) then keys obj else keys obj ++ [key].
Proof.
  induction obj as [|[k v'] rest IH]; [done|].
  cbn [upsert]. destruct (String.eqb_spec k key) as [->|Hne].
  - rewrite bool_decide_eq_true_2 by (unfold keys; cbn; left). done.
  - unfold keys in *. cbn [fmap list_fmap fst]. rewrite IH.
    destruct (decide (key ∈ rest.*1)) as [Hin|Hout].
    + rewrite !bool_decide_eq_true_2; [done | by right | done].
    + rewrite !bool_decide_eq_false_2; [done | | done].
      intros [Heq|Hin]%elem_of_cons; [by apply Hne | by apply Hout].
Qed.

Lemma getProp_upsert {A : Type} (key : string) (v : A) (obj : list (string * A)) (name : string) :
  getProp (upsert key v obj) name = if String.eqb key name then Some v else getProp obj name.
Proof.
  induction obj as [|[k v'] rest IH]; [done|].
  cbn [upsert getProp]. destruct (String.eqb_spec k key) as [->|Hne].
  - cbn [getProp]. by destruct (String.eqb key name).
  - cbn [getProp]. rewrite IH. destruct (String.eqb_spec k name) as [->|Hkn]; [|done].
    destruct (String.eqb_spec key name) as [->|]; [by destruct Hne | done].
Qed.

Lemma getProp_keys {A : Type} (obj : list (string * A)) (name : string) :
  name ∈ keys obj <-> is_Some (getProp obj name).
Proof.
  induction obj as [|[k v] rest IH]; cbn [getProp].
  - split; [by intros ?%elem_of_nil | by intros [? ?]].
  - unfold keys in *. cbn [fmap list_fmap fst]. rewrite elem_of_cons, IH.
    destruct (String.eqb_spec k name) as [->|Hne]; [by split; [eauto | left]|].
    split; [by intros [-> | ?] | by right].
Qed.

Lemma extractParameters_snoc (V : Variant.t) (ps : list ParameterDeclaration.t)
    (p : ParameterDeclaration.t) :
  extractParameters V (ps ++ [p])
  = setProp (extractParameters V ps) (ParameterDeclaration.getName p) (parameterSchema V p).
Proof. unfold extractParameters. by rewrite foldl_app. Qed.

Lemma extractParameters_keys (V : Variant.t) (ps : list ParameterDeclaration.t) :
  NoDup (keys (extractParameters V ps))
  ∧ ∀ name, name ∈ keys (extractParameters V ps)
            <-> name ≠ "__proto__" ∧ name ∈ ParameterDeclaration.getName <$> ps.
Proof.
  induction ps as [|p ps [IHnd IHin]] using rev_ind.
  - split; [constructor|]. intros name. cbn.
    split; [by intros ?%elem_of_nil | by intros [_ ?%elem_of_nil]].
  - rewrite extractParameters_snoc. unfold setProp.
    destruct (String.eqb_spec (ParameterDeclaration.getName p) "__proto__") as [Hp|Hp].
    + split; [done|]. intros name. rewrite IHin, fmap_app, elem_of_app.
      cbn [fmap list_fmap]. rewrite list_elem_of_singleton. split.
      * intros [? ?]. split; [done | by left].
      * intros [Hne [? | ->]]; [done | by destruct Hne].
    + rewrite keys_upsert.
      destruct (decide (ParameterDeclaration.getName p ∈ keys (extractParameters V ps)))
        as [Hin|Hout].
      * rewrite bool_decide_eq_true_2 by done. split; [done|].
        intros name. rewrite IHin, fmap_app, elem_of_app.
        cbn [fmap list_fmap]. rewrite list_elem_of_singleton. split.
        -- intros [? ?]. split; [done | by left].
        -- intros [Hne [? | ->]]; [done | by apply IHin].
      * rewrite bool_decide_eq_false_2 by done. split.
        -- apply NoDup_app. split; [done|]. split; [|apply NoDup_singleton].
           intros x Hx ->%list_elem_of_singleton. by apply Hout.
        -- intros name. rewrite elem_of_app, IHin, fmap_app, elem_of_app.
           cbn [fmap list_fmap]. rewrite !list_elem_of_singleton. split.
           ++ intros [[? ?] | ->]; [split; [done | by left] | split; [done | by right]].
           ++ intros [Hne [? | ->]]; [by left | by right].
Qed.

(** X9. The parameter object of a descriptor is an object: its keys are
    distinct, a parameter called [__proto__] leaves no key, and under every
    other name stands the schema of the last parameter declared with it. *)
Theorem parameter_last_declaration_wins (V : Variant.t)
    (ps : list ParameterDeclaration.t) (name : string)
    (Hname : name ≠ "__proto__") :
  NoDup (keys (extractParameters V ps))
  ∧ ("__proto__" ∉ keys (extractParameters V ps))
  ∧ getProp (extractParameters V ps) name
    = parameterSchema V
        <$> last (filter (fun p => ParameterDeclaration.getName p = name) ps).
Proof.
  split; [apply extractParameters_keys|].
  split; [intros Hin; by apply extractParameters_keys in Hin as [? _]|].
  induction ps as [|p ps IH] using rev_ind; [done|].
  rewrite extractParameters_snoc, filter_app. unfold setProp.
  rewrite filter_cons, filter_nil.
  destruct (decide (ParameterDeclaration.getName p = name)) as [Heq|Hne].
  - rewrite last_snoc. subst name.
    rewrite (proj2 (String.eqb_neq _ _) Hname), getProp_upsert.
    by rewrite String.eqb_refl.
  - rewrite app_nil_r, <- IH.
    destruct (String.eqb (ParameterDeclaration.getName p) "__proto__"); [done|].
    rewrite getProp_upsert. by rewrite (proj2 (String.eqb_neq _ _) Hne).
Qed.

Lemma parameter_last_declaration_wins_witness :
  getProp (extractParameters Lib.variant
             (Signature.getParameters Demo.updateSignature
              ++ [ParameterDeclaration.mk "id" "number" true])) "id"
  = Some (ParameterSchema.mk (Tag "number") false None None).
Proof.
  by destruct (parameter_last_declaration_wins Lib.variant
                 (Signature.getParameters Demo.updateSignature
                  ++ [ParameterDeclaration.mk "id" "number" true]) "id")
    as (_ & _ & ->).
Defined.

Lemma extractParameters_distinct (V : Variant.t) (ps : list ParameterDeclaration.t) :
  NoDup (ParameterDeclaration.getName <$> ps) ->
  "__proto__" ∉ ParameterDeclaration.getName <$> ps ->
  extractParameters V ps
  = (fun p => (ParameterDeclaration.getName p, parameterSchema V p)) <$> ps.
Proof.
  induction ps as [|p ps IH] using rev_ind; [done|].
  rewrite fmap_app. cbn [fmap list_fmap].
  intros [Hnd [Hfresh _]]%NoDup_app Hproto.
  rewrite extractParameters_snoc, fmap_app. cbn [fmap list_fmap].
  rewrite not_elem_of_app in Hproto. destruct Hproto as [Hproto Hp].
  rewrite <- (IH Hnd Hproto). unfold setProp.
  rewrite (proj2 (String.eqb_neq _ _)).
  2:{ intros Heq. apply Hp. rewrite Heq. left. }
  assert (Hout : ParameterDeclaration.getName p ∉ keys (extractParameters V ps)).
  { intros [_ Hin]%extractParameters_keys. apply (Hfresh _ Hin). left. }
  clear -Hout. induction (extractParameters V ps) as [|[k v] rest IHrest]; [done|].
  cbn [upsert]. unfold keys in Hout. cbn [fmap list_fmap fst] in Hout.
  rewrite not_elem_of_cons in Hout. destruct Hout as [Hk Hrest].
  rewrite (proj2 (String.eqb_neq _ _)) by done.
  cbn [app]. f_equal. by apply IHrest.
Qed.

(** X10. From declaration to manifest: for a function or method whose
    parameters have distinct names, none of them [__proto__], the input
    schema lists the parameters in declaration order, and [required] holds
    the names of the parameters without a question mark, in that order. *)
Theorem manifest_required_parameters (V : Variant.t) (w : World.t)
    (filePath name : string) (fn : FnNode) (sig : Signature.t)
    (Hsig : Fn.signature_in fn = Some sig)
    (Hdistinct : NoDup (ParameterDeclaration.getName <$> Signature.getParameters sig))
    (Hproto : "__proto__" ∉ ParameterDeclaration.getName <$> Signature.getParameters sig) :
  let entry := manifestTool (buildTool V w filePath name fn) in
  keys (ManifestTool.properties entry)
  = ParameterDeclaration.getName <$> Signature.getParameters sig
  ∧ ManifestTool.required entry
    = ParameterDeclaration.getName
        <$> filter (fun p => ParameterDeclaration.hasQuestionToken p = false)
              (Signature.getParameters sig).
Proof.
  cbn zeta. unfold buildTool. rewrite Hsig. cbn [default fmap option_fmap option_map].
  destruct (document V name _ _) as [description examples].
  cbn [manifestTool Tool.parameters ManifestTool.properties ManifestTool.required].
  unfold id. rewrite (extractParameters_distinct V _ Hdistinct Hproto).
  clear. induction (Signature.getParameters sig) as [|p ps [IHk IHr]]; [done|].
  split.
  - unfold keys in *. cbn [fmap list_fmap fst]. by rewrite IHk.
  - cbn [fmap list_fmap]. rewrite !filter_cons.
    destruct (decide _) as [Hrequired|Hrequired];
      destruct (decide _) as [Hplain|Hplain];
      cbn [uncurry parameterSchema ParameterSchema.required] in Hrequired.
    + cbn [fmap list_fmap fst]. by rewrite IHr.
    + destruct (ParameterDeclaration.hasQuestionToken p); [done | by destruct Hplain].
    + rewrite Hplain in Hrequired. by destruct Hrequired.
    + exact IHr.
Qed.

Lemma manifest_required_parameters_witness :
  let entry :=
    manifestTool (buildTool Lib.variant Demo.bindings "/project/src/users.ts" "updateUser"
                    (FunctionNode Demo.updateUser)) in
  keys (ManifestTool.properties entry) = ["id"; "email"; "role"]
  ∧ ManifestTool.required entry = ["id"; "role"].
Proof.
  apply (manifest_required_parameters Lib.variant Demo.bindings "/project/src/users.ts"
           "updateUser" (FunctionNode Demo.updateUser) Demo.updateSignature eq_refl).
  - cbn. repeat (constructor; [by rewrite ?elem_of_cons, elem_of_nil; intros H; repeat destruct H as [H|H]|]). constructor.
  - cbn. rewrite !elem_of_cons, elem_of_nil. intros H; by repeat destruct H as [H|H].
Defined.

(** ** Further properties of the Schema Scanner *)

Lemma NoDup_keys_setProp {A : Type} (obj : list (string * A)) (key : string) (v : A) :
  NoDup (keys obj) -> NoDup (keys (setProp obj key v)).
Proof.
  intros Hnd. unfold setProp. destruct (String.eqb key "__proto__"); [done|].
  rewrite keys_upsert. destruct (decide (key ∈ keys obj)) as [Hin|Hout].
  - by rewrite bool_decide_eq_true_2.
  - rewrite bool_decide_eq_false_2 by done. apply NoDup_app.
    split; [done|]. split; [|apply NoDup_singleton].
    intros x Hx ->%list_elem_of_singleton. by apply Hout.
Qed.

Section MoreSchemaFacts.
Variable columnSchema : Column.t -> option ColumnSchema.t.
Variable construct : string -> string -> option (list (option ParsedSql.t)).
Variable w : World.t.

Lemma buildColumns_NoDup cols acc columns :
  buildColumns columnSchema cols acc = Some columns ->
  NoDup (keys acc) -> NoDup (keys columns).
Proof.
  revert acc. induction cols as [|ocol cols IH]; intros acc; cbn [buildColumns].
  - by intros [= <-].
  - destruct ocol as [col|]; [|done]. cbn.
    destruct (columnSchema col) as [schema|]; [|done]. cbn.
    intros Hrest Hacc. apply (IH _ Hrest). by apply NoDup_keys_setProp.
Qed.

Lemma tableStep_push_table file dialect otable r :
  tableStep columnSchema w file dialect otable = Push r ->
  ∃ table, otable = Some table
           ∧ Table.name table = Some (Resource.name r)
           ∧ Resource.name r ≠ ""
           ∧ World.statMtime w file = Some (Resource.lastModified r)
           ∧ NoDup (keys (Resource.columns r)).
Proof.
  unfold tableStep.
  destruct otable as [table|]; [|done].
  destruct (Table.name table) as [name|] eqn:Hname; [|done].
  destruct (truthy name) eqn:Htruthy; [|done]. cbn [negb].
  destruct (_ ≫= _) as [r'|] eqn:Hr; [|done]. intros [= <-].
  apply bind_Some in Hr as (columns & Hcolumns & Hr).
  apply bind_Some in Hr as (indexes & _ & Hr).
  apply bind_Some in Hr as (foreignKeys & _ & Hr).
  apply bind_Some in Hr as (lastModified & Hstat & Hr).
  injection Hr as <-. cbn. exists table. repeat split; try done.
  - intros ->. done.
  - destruct (Table.columns table) as [cols|].
    + apply (buildColumns_NoDup _ _ _ Hcolumns). constructor.
    + injection Hcolumns as <-. constructor.
Qed.

Lemma processTables_elem file dialect tables r :
  r ∈ (processTables columnSchema w file dialect tables []).1 ->
  ∃ otable, otable ∈ tables ∧ tableStep columnSchema w file dialect otable = Push r.
Proof.
  induction tables as [|t tables IH]; cbn [processTables].
  - by intros ?%elem_of_nil.
  - destruct (tableStep columnSchema w file dialect t) eqn:Hstep.
    + intros (otable & ? & ?)%IH. exists otable. split; [by right | done].
    + rewrite processTables_acc. cbn [fst app].
      intros [->|(otable & ? & ?)%IH]%elem_of_cons.
      * exists t. split; [by left | done].
      * exists otable. split; [by right | done].
    + by intros ?%elem_of_nil.
Qed.

Lemma attemptOf_elem file raw dialect r :
  r ∈ (attemptOf columnSchema construct w file raw dialect).1 ->
  Resource.dialect r = dialect
  ∧ Resource.name r ≠ ""
  ∧ NoDup (keys (Resource.columns r))
  ∧ (World.readFileSync w file = Some raw ->
     ∃ table, stemsFrom construct w r file raw table).
Proof.
  unfold attemptOf. destruct (construct dialect raw) as [results|] eqn:Hparse.
  2:{ by intros ?%elem_of_nil. }
  intros (otable & Hin & Hstep)%processTables_elem.
  pose proof (tableStep_push _ _ _ _ _ _ Hstep) as (Hdialect & Hfile & _).
  apply tableStep_push_table in Hstep as (table & -> & Hname & Htruthy & Hstat & Hcols).
  repeat split; try done.
  intros Hread. exists table. unfold stemsFrom. rewrite Hdialect.
  repeat split; try done. by exists results.
Qed.

Lemma attempt_attemptOf file raw st dialect :
  attempt columnSchema construct w file raw st dialect
  = (SqlState.mk
       (SqlState.resources st ++ (attemptOf columnSchema construct w file raw dialect).1)
       (SqlState.attempts st ++ [(file, dialect)]),
     (attemptOf columnSchema construct w file raw dialect).2).
Proof.
  unfold attempt, attemptOf. destruct (construct dialect raw) as [results|].
  - by rewrite processTables_acc.
  - by rewrite app_nil_r.
Qed.

Lemma upToFirst_subset test ds d : d ∈ upToFirst test ds -> d ∈ ds.
Proof.
  induction ds as [|d' ds IH]; [done|]. cbn [upToFirst].
  intros [->|Hin]%elem_of_cons; [by left|]. right.
  destruct (test d'); [by apply elem_of_nil in Hin | by apply IH].
Qed.

(** X11. The dialect loop on one file: the dialects are attempted in the
    given order up to and including the first whose [try] block reaches its
    end; what every attempted dialect pushed is appended, in that order, to
    the descriptors found before; the file counts as parsed when one of the
    dialects completes. *)
Theorem dialect_loop_trace (file raw : string) (ds : list string) (st : SqlState.t) :
  let tried := attempted columnSchema construct w file raw ds in
  tryDialects columnSchema construct w file raw ds st
  = (SqlState.mk
       (SqlState.resources st
        ++ flat_map (fun dialect => (attemptOf columnSchema construct w file raw dialect).1)
             tried)
       (SqlState.attempts st ++ ((fun dialect => (file, dialect)) <$> tried)),
     existsb (fun dialect => (attemptOf columnSchema construct w file raw dialect).2) ds).
Proof.
  cbn zeta. revert st. induction ds as [|d ds IH]; intros st.
  - cbn. rewrite !app_nil_r. by destruct st.
  - cbn [tryDialects]. rewrite attempt_attemptOf.
    unfold attempted in *. cbn [upToFirst existsb].
    destruct (attemptOf columnSchema construct w file raw d).2 eqn:Hdone.
    + cbn. by rewrite app_nil_r.
    + rewrite IH. cbn. by rewrite <- !app_assoc.
Qed.

Lemma tryDialects_elem file raw ds st r :
  r ∈ SqlState.resources (tryDialects columnSchema construct w file raw ds st).1 ->
  r ∈ SqlState.resources st
  ∨ ∃ dialect, dialect ∈ ds
               ∧ r ∈ (attemptOf columnSchema construct w file raw dialect).1.
Proof.
  revert st. induction ds as [|d ds IH]; intros st; cbn [tryDialects].
  - by left.
  - rewrite attempt_attemptOf.
    destruct (attemptOf columnSchema construct w file raw d).2.
    + cbn. intros [?|?]%elem_of_app; [by left|]. right. exists d. split; [by left | done].
    + intros [[?|?]%elem_of_app|(dialect & ? & ?)]%IH.
      * by left.
      * right. exists d. split; [by left | done].
      * right. exists dialect. split; [by right | done].
Qed.

Lemma tryDialects_unparsed file raw ds st :
  (∀ dialect, dialect ∈ ds -> construct dialect raw = None) ->
  tryDialects columnSchema construct w file raw ds st
  = (SqlState.mk (SqlState.resources st)
       (SqlState.attempts st ++ ((fun dialect => (file, dialect)) <$> ds)),
     false).
Proof.
  revert st. induction ds as [|d ds IH]; intros st Hnone.
  - cbn. rewrite app_nil_r. by destruct st.
  - cbn [tryDialects]. unfold attempt. rewrite (Hnone d) by (by left).
    rewrite IH by (intros; apply Hnone; by right). cbn. by rewrite <- app_assoc.
Qed.

Lemma processSqlFile_scanned checkExists skipBlank st file :
  processSqlFile columnSchema construct w checkExists skipBlank st file
  = if scanned w checkExists skipBlank file
    then (tryDialects columnSchema construct w file
            (default "" (World.readFileSync w file)) dialects st).1
    else st.
Proof.
  unfold processSqlFile, scanned.
  destruct checkExists, (World.existsSync w file); cbn [negb andb orb]; try done.
  all: destruct (World.readFileSync w file) as [raw|]; [|done].
  all: destruct skipBlank, (truthy (JS.trim raw)); by cbn.
Qed.

(** Every descriptor of a run was pushed by the attempt of one of the four
    dialects on a file that reached the dialect loop. *)
Lemma scanSqlFiles_elem checkExists skipBlank r :
  r ∈ SqlState.resources (scanSqlFiles columnSchema construct w checkExists skipBlank) ->
  ∃ file raw dialect,
    file ∈ World.sqlFiles w
    ∧ scanned w checkExists skipBlank file = true
    ∧ World.readFileSync w file = Some raw
    ∧ dialect ∈ dialects
    ∧ r ∈ (attemptOf columnSchema construct w file raw dialect).1.
Proof.
  unfold scanSqlFiles.
  assert (Hsub : ∀ file, file ∈ World.sqlFiles w -> file ∈ World.sqlFiles w) by done.
  revert Hsub. generalize (World.sqlFiles w) at 1 3 as files.
  induction files as [|file files IH] using rev_ind; intros Hsub.
  - by intros ?%elem_of_nil.
  - rewrite foldl_app. cbn [foldl]. rewrite processSqlFile_scanned.
    destruct (scanned w checkExists skipBlank file) eqn:Hscanned.
    2:{ apply IH. intros ? ?. apply Hsub, elem_of_app. by left. }
    intros [Hold|(dialect & Hdialect & Hr)]%tryDialects_elem.
    { revert Hold. apply IH. intros ? ?. apply Hsub, elem_of_app. by left. }
    assert (∃ raw, World.readFileSync w file = Some raw) as [raw Hraw].
    { unfold scanned in Hscanned. destruct (World.readFileSync w file); [eauto|].
      by rewrite andb_false_r in Hscanned. }
    rewrite Hraw in Hr. cbn [default] in Hr.
    exists file, raw, dialect. repeat split; try done.
    apply Hsub, elem_of_app. right. by left.
Qed.

(** X12. Where a descriptor comes from: every descriptor of a run of the
    Schema Scanner has a non-empty name, distinct column keys and one of the
    four dialects, and stems from a table of that name which that dialect
    read in one of the SQL files found, a file that passed the tests made
    before the dialect loop. *)
Theorem resource_provenance (checkExists skipBlank : bool) (r : Resource.t)
    (Hin : r ∈ SqlState.resources
               (scanSqlFiles columnSchema construct w checkExists skipBlank)) :
  Resource.name r ≠ ""
  ∧ Resource.dialect r ∈ dialects
  ∧ NoDup (keys (Resource.columns r))
  ∧ ∃ file raw table,
      file ∈ World.sqlFiles w
      ∧ scanned w checkExists skipBlank file = true
      ∧ stemsFrom construct w r file raw table.
Proof.
  apply scanSqlFiles_elem in Hin as (file & raw & dialect & Hfile & Hscanned & Hraw & Hd & Hr).
  apply attemptOf_elem in Hr as (<- & Hname & Hcols & Hstem).
  destruct (Hstem Hraw) as [table Htable].
  repeat split; try done. by exists file, raw, table.
Qed.

(** X13. A project whose SQL files no dialect can read: no descriptor, and
    every file that reaches the dialect loop is attempted under all four
    dialects, in the fixed order.  Where blank files are skipped, the texts
    of the files are taken to be ASCII. *)
Theorem unreadable_schema_attempts (checkExists skipBlank : bool)
    (Hascii : skipBlank = true ->
              ∀ file raw, file ∈ World.sqlFiles w ->
                          World.readFileSync w file = Some raw -> asciiText raw = true)
    (Hnone : ∀ file raw dialect,
        file ∈ World.sqlFiles w -> World.readFileSync w file = Some raw ->
        dialect ∈ dialects -> construct dialect raw = None) :
  scanSqlFiles columnSchema construct w checkExists skipBlank
  = SqlState.mk []
      (flat_map (fun file => (fun dialect => (file, dialect)) <$> dialects)
         (filter (fun file => scanned w checkExists skipBlank file = true)
            (World.sqlFiles w))).
Proof.
  clear Hascii. unfold scanSqlFiles. revert Hnone.
  generalize (World.sqlFiles w) as files.
  induction files as [|file files IH] using rev_ind; intros Hnone; [done|].
  rewrite foldl_app, filter_app, flat_map_app. cbn [foldl].
  rewrite IH by (intros ? ? ? ?; apply Hnone, elem_of_app; by left).
  rewrite processSqlFile_scanned, filter_cons, filter_nil.
  destruct (scanned w checkExists skipBlank file) eqn:Hscanned.
  - rewrite decide_True by done.
    assert (∃ raw, World.readFileSync w file = Some raw) as [raw Hraw].
    { unfold scanned in Hscanned. destruct (World.readFileSync w file); [eauto|].
      by rewrite andb_false_r in Hscanned. }
    rewrite Hraw. cbn [default].
    rewrite tryDialects_unparsed.
    2:{ intros dialect Hd. apply (Hnone file); [|done|done]. apply elem_of_app. right. by left. }
    cbn [fst SqlState.resources SqlState.attempts flat_map]. by rewrite app_nil_r.
  - rewrite decide_False by done. cbn [flat_map]. by rewrite app_nil_r.
Qed.

End MoreSchemaFacts.

Lemma resource_provenance_witness :
  Resource.name Demo.usersTable ≠ ""
  ∧ Resource.dialect Demo.usersTable ∈ dialects
  ∧ NoDup (keys (Resource.columns Demo.usersTable))
  ∧ ∃ file raw table,
      file ∈ World.sqlFiles Sample.hole
      ∧ scanned Sample.hole true true file = true
      ∧ stemsFrom (Cli.construct Sample.hole) Sample.hole Demo.usersTable file raw table.
Proof.
  apply (resource_provenance Cli.columnSchema (Cli.construct Sample.hole) Sample.hole
           true true Demo.usersTable).
  vm_compute. right. left.
Defined.

Lemma unreadable_schema_attempts_witness :
  Cli.scanSql Demo.unparsable
  = SqlState.mk []
      [ ("db/schema.sql", "mysql"); ("db/schema.sql", "postgresql");
        ("db/schema.sql", "sqlite"); ("db/schema.sql", "mssql") ].
Proof.
  unfold Cli.scanSql.
  rewrite (unreadable_schema_attempts Cli.columnSchema (Cli.construct Demo.unparsable)
             Demo.unparsable true true); [reflexivity | | done].
  intros _ file raw _. cbn.
  destruct (String.eqb file Sample.schemaPath); [|done]. by intros [= <-].
Defined.

(** ** The orchestrator *)

(** X14. How a run of the orchestrator can end, with the globs that can
    reject.  The library variant never ends the process by itself, and
    rejects exactly when no project object can be built with the tsconfig
    path or one of the four globs rejects.  The command-line variant ends
    the process, with code 1, exactly when the glob of the Schema Scanner
    resolves and the SQL parser module cannot be loaded; short of that it
    rejects exactly when one of the two globs counted for the statistics
    rejects: no failure of a scanner rejects it.  When every glob resolves
    the runs are those of [generateMCPManifest] above. *)
Theorem manifest_outcomes (g : Globs.t) (w : World.t) :
  (∀ code, LibRun.generateMCPManifest g w ≠ Exited code)
  ∧ (LibRun.generateMCPManifest g w = Thrown
     <-> World.newProject w true = false
         ∨ Globs.tsFiles g = false ∨ Globs.sqlFiles g = false
         ∨ Globs.typescript g = false ∨ Globs.sql g = false)
  ∧ (∀ code, CliRun.generateMCPManifest g w = Exited code
             <-> Globs.sqlFiles g = true
                 ∧ World.parserModule w = ModuleNotFound ∧ code = 1)
  ∧ (CliRun.generateMCPManifest g w = Thrown
     <-> ¬ (Globs.sqlFiles g = true ∧ World.parserModule w = ModuleNotFound)
         ∧ (Globs.typescript g = false ∨ Globs.sql g = false))
  ∧ (g = Globs.mk true true true true ->
     LibRun.generateMCPManifest g w = Lib.generateMCPManifest w
     ∧ CliRun.generateMCPManifest g w = Cli.generateMCPManifest w).
Proof.
  destruct g as [tools resources typescript sql].
  unfold LibRun.generateMCPManifest, LibRun.extractTools, LibRun.extractResources,
    CliRun.generateMCPManifest, CliRun.extractTools, CliRun.extractResources,
    Lib.generateMCPManifest, Cli.generateMCPManifest,
    Lib.extractTools, Lib.extractResources, Lib.extractProjectMetadata,
    Cli.extractTools, Cli.extractResources, Cli.initializeParser,
    Cli.extractProjectMetadata, awaitGlob.
  cbn [Globs.tsFiles Globs.sqlFiles Globs.typescript Globs.sql].
  split; [|split; [|split; [|split]]].
  - intros code.
    destruct (World.newProject w true), tools, resources, typescript, sql;
      cbn [andThen]; discriminate.
  - destruct (World.newProject w true), tools, resources, typescript, sql;
      cbn [andThen];
      (split;
       [ first [ intros H; discriminate H
               | intros _; repeat first [left; reflexivity | right]; reflexivity ]
       | first [ intros _; reflexivity
               | intros [H|[H|[H|[H|H]]]]; discriminate H ] ]).
  - intros code.
    destruct (_ || _); [destruct (Nat.eqb _ _)|];
      destruct tools, resources, typescript, sql, (World.parserModule w); cbn;
      split; try done;
      try (by intros [= <-]); try (by intros (_ & _ & ->));
      try (by intros (? & ? & ?)).
  - destruct (_ || _); [destruct (Nat.eqb _ _)|];
      destruct tools, resources, typescript, sql, (World.parserModule w); cbn;
      split; try done;
      try (intros _; split; [by intros [? ?] | by eauto]);
      try (by intros [_ [?|?]]);
      try (by intros [Hno _]; destruct Hno).
  - intros [= -> -> -> ->]. split.
    + by destruct (World.newProject w true).
    + destruct (_ || _); [destruct (Nat.eqb _ _)|];
        by destruct (World.parserModule w).
Qed.

(** What a manifest is assembled from. *)
Lemma manifest_parts (w : World.t) (manifest : Manifest.t) :
  Lib.generateMCPManifest w = Returned manifest
  ∨ Cli.generateMCPManifest w = Returned manifest ->
  ∃ tools resources,
    manifest = assemble tools resources (World.projectMetadata w)
    ∧ (tools = [] ∨ Lib.extractTools w = Returned tools
       ∨ Cli.extractTools w = Returned tools)
    ∧ (resources = []
       ∨ resources = SqlState.resources (Lib.scanSql w)
       ∨ resources = SqlState.resources (Cli.scanSql w)).
Proof.
  intros [Hrun|Hrun].
  - unfold Lib.generateMCPManifest in Hrun.
    destruct (Lib.extractTools w) as [tools| |] eqn:Htools; [|done..].
    cbn in Hrun. injection Hrun as <-. exists tools, (SqlState.resources (Lib.scanSql w)).
    eauto 10.
  - unfold Cli.generateMCPManifest in Hrun.
    destruct (Cli.extractTools w) as [tools| |] eqn:Htools;
      unfold Cli.extractResources, Cli.initializeParser in Hrun;
      destruct (World.parserModule w); cbn in Hrun; try done;
      injection Hrun as <-; eauto 10.
Qed.

Lemma toolOf_category V w c :
  Tool.category (toolOf V w c) = categorizeFunction (candidateName c) (candidatePath c).
Proof. unfold toolOf, buildTool. by destruct (document _ _ _ _). Qed.

Lemma toolOf_parameters V w c :
  Tool.parameters (toolOf V w c)
  = extractParameters V
      (default [] (Signature.getParameters <$> Fn.signature_in (candidateNode c))).
Proof. unfold toolOf, buildTool. by destruct (document _ _ _ _). Qed.

Lemma run_category (w : World.t) (tools : list Tool.t) :
  tools = [] ∨ Lib.extractTools w = Returned tools ∨ Cli.extractTools w = Returned tools ->
  Forall (fun tool => Tool.category tool ∈ categories) tools.
Proof.
  intros [->|Hrun]; [constructor|]. apply Forall_forall. intros tool Htool.
  destruct (run_emitted w tools tool Hrun Htool) as (V & ce & c & _ & _ & ->).
  rewrite toolOf_category. apply categorizeFunction_vocabulary.
Qed.

(** X15. The entries of a manifest (either variant, any project).  The two
    totals are the lengths of the two lists and the description of the
    project is never empty.  A tool entry has distinct property keys, none
    of them [__proto__], its required names are among them, and its
    category belongs to the vocabulary.  A resource entry has a non-empty
    name, the address [sql://] followed by that name, and one of the four
    dialects. *)
Theorem manifest_entries (w : World.t) (manifest : Manifest.t)
    (Hrun : Lib.generateMCPManifest w = Returned manifest
            ∨ Cli.generateMCPManifest w = Returned manifest) :
  Manifest.totalTools manifest = length (Manifest.tools manifest)
  ∧ Manifest.totalResources manifest = length (Manifest.resources manifest)
  ∧ ProjectMetadata.description (Manifest.info manifest) ≠ ""
  ∧ Forall (fun entry =>
              NoDup (keys (ManifestTool.properties entry))
              ∧ ("__proto__" ∉ keys (ManifestTool.properties entry))
              ∧ ManifestTool.required entry ⊆ keys (ManifestTool.properties entry)
              ∧ ManifestTool.category entry ∈ categories)
      (Manifest.tools manifest)
  ∧ Forall (fun entry =>
              ManifestResource.name entry ≠ ""
              ∧ ManifestResource.uri entry = "sql://" +:+ ManifestResource.name entry
              ∧ Resource.dialect (ManifestResource.metadata entry) ∈ dialects)
      (Manifest.resources manifest).
Proof.
  destruct (manifest_parts w manifest Hrun) as (tools & resources & -> & Htools & Hres).
  unfold assemble. cbn [Manifest.totalTools Manifest.totalResources Manifest.info
    Manifest.tools Manifest.resources ProjectMetadata.description].
  rewrite !length_fmap. repeat split.
  - destruct (truthy _) eqn:Htruthy; [|done].
    unfold truthy in Htruthy. intros Heq. by rewrite Heq in Htruthy.
  - apply Forall_fmap, Forall_forall. intros tool Htool.
    pose proof (run_category w tools Htools) as Hcat.
    rewrite Forall_forall in Hcat. specialize (Hcat tool Htool).
    assert (∃ V ps, Tool.parameters tool = extractParameters V ps) as (V & ps & Hps).
    { destruct Htools as [->|Hrun']; [by apply elem_of_nil in Htool|].
      destruct (run_emitted w tools tool Hrun' Htool) as (V & ce & c & _ & _ & ->).
      rewrite toolOf_parameters. eauto. }
    cbn [manifestTool ManifestTool.properties ManifestTool.required
      ManifestTool.category compose]. rewrite Hps.
    destruct (extractParameters_keys V ps) as [Hnd Hkeys].
    repeat split; try done.
    + intros Hin. by apply Hkeys in Hin as [? _].
    + intros name (entry & -> & Hentry%list_elem_of_filter)%list_elem_of_fmap.
      apply list_elem_of_fmap. exists entry. split; [done | apply Hentry].
  - apply Forall_fmap, Forall_forall. intros r Hr.
    cbn [manifestResource ManifestResource.name ManifestResource.uri
      ManifestResource.metadata compose].
    assert (∃ cs construct file raw dialect,
              dialect ∈ dialects ∧ r ∈ (attemptOf cs construct w file raw dialect).1)
      as (cs & construct & file & raw & dialect & Hd & Hpushed).
    { destruct Hres as [->|[->| ->]]; [by apply elem_of_nil in Hr| |].
      - apply scanSqlFiles_elem in Hr as (file & raw & dialect & _ & _ & _ & ? & ?).
        eauto 10.
      - apply scanSqlFiles_elem in Hr as (file & raw & dialect & _ & _ & _ & ? & ?).
        eauto 10. }
    apply attemptOf_elem in Hpushed as (-> & Hname & _). done.
Qed.

Lemma manifest_entries_witness :
  ∃ manifest,
    Cli.generateMCPManifest Demo.bindings = Returned manifest
    ∧ Manifest.totalTools manifest = 1
    ∧ Manifest.totalTools manifest = length (Manifest.tools manifest)
    ∧ ProjectMetadata.description (Manifest.info manifest) ≠ "".
Proof.
  eexists. split; [reflexivity|]. split; [reflexivity|].
  pose proof (manifest_entries Demo.bindings _ (or_intror eq_refl)) as (Htotal & _ & Hd & _).
  split; [exact Htotal | exact Hd].
Defined.

(** ** Statistics: tools by category *)

Lemma keys_pushInto category tool groups :
  keys (pushInto category tool groups) = keys groups.
Proof.
  induction groups as [|[c items] rest IH]; [done|]. cbn [pushInto].
  destruct (String.eqb c category); [done|].
  unfold keys in *. cbn [fmap list_fmap fst]. by rewrite IH.
Qed.

Lemma getProp_pushInto category tool groups c :
  getProp (pushInto category tool groups) c
  = if String.eqb category c
    then (fun items => items ++ [tool]) <$> getProp groups category
    else getProp groups c.
Proof.
  induction groups as [|[c0 items] rest IH]; cbn [pushInto getProp].
  - by destruct (String.eqb category c).
  - destruct (String.eqb_spec c0 category) as [->|Hne]; cbn [getProp].
    + by destruct (String.eqb category c).
    + rewrite IH. destruct (String.eqb_spec c0 c) as [->|Hc0]; [|done].
      by rewrite (proj2 (String.eqb_neq _ _)) by (intros ->; by apply Hne).
Qed.

Lemma getProp_snoc {A : Type} (obj : list (string * A)) (key : string) (v : A) (c : string) :
  key ∉ keys obj ->
  getProp (obj ++ [(key, v)]) c = if String.eqb key c then Some v else getProp obj c.
Proof.
  intros Hout. induction obj as [|[k v'] rest IH]; [done|].
  unfold keys in Hout. cbn [fmap list_fmap fst] in Hout.
  apply not_elem_of_cons in Hout as [Hk Hrest].
  cbn [app getProp]. rewrite (IH Hrest).
  destruct (String.eqb_spec k c) as [->|Hkc]; [|done].
  by rewrite (proj2 (String.eqb_neq _ _)) by done.
Qed.

Lemma getProp_fmap {A B : Type} (f : A -> B) (obj : list (string * A)) (c : string) :
  getProp ((fun entry : string * A => (entry.1, f entry.2)) <$> obj) c = f <$> getProp obj c.
Proof.
  induction obj as [|[k v] rest IH]; [done|]. cbn [fmap list_fmap getProp fst snd].
  destruct (String.eqb k c); [done | apply IH].
Qed.

Lemma sum_pushInto category tool groups :
  category ∈ keys groups ->
  sum_list ((fun entry : string * list Tool.t => length entry.2)
              <$> pushInto category tool groups)
  = S (sum_list ((fun entry : string * list Tool.t => length entry.2) <$> groups)).
Proof.
  induction groups as [|[c items] rest IH]; [by intros ?%elem_of_nil|].
  unfold keys. cbn [fmap list_fmap fst pushInto].
  destruct (String.eqb_spec c category) as [->|Hne].
  - intros _. cbn [fmap list_fmap sum_list snd]. rewrite length_app. cbn. lia.
  - intros [Heq|Hin]%elem_of_cons; [by destruct Hne|].
    cbn [fmap list_fmap sum_list snd]. rewrite (IH Hin). lia.
Qed.

Lemma sum_list_snoc (l : list nat) (n : nat) : sum_list (l ++ [n]) = sum_list l + n.
Proof. induction l as [|m l IH]; cbn; lia. Qed.

Lemma truthy_spec s : truthy s = true <-> s ≠ "".
Proof.
  unfold truthy. by destruct (String.eqb_spec s "").
Qed.

Lemma category_plain (category : string) :
  category ∈ categories -> truthy category = true ∧ category ∉ objectPrototypeKeys.
Proof.
  intros Hin. unfold categories, pathCategories in Hin. cbn [app] in Hin.
  split_alternatives Hin; subst category; (split; [done|]).
  all: intros Hin; unfold objectPrototypeKeys in Hin; split_alternatives Hin; done.
Qed.

(** The groups after the [reduce]: one per category met, each holding the
    tools of its category in order. *)
Lemma groupByCategory_groups (tools : list Tool.t) :
  Forall (fun tool => Tool.category tool ∈ categories) tools ->
  ∃ groups,
    groupByCategory tools = Some groups
    ∧ NoDup (keys groups)
    ∧ (∀ c, getProp groups c
            = match filter (fun tool => Tool.category tool = c) tools with
              | [] => None
              | items => Some items
              end)
    ∧ sum_list ((fun entry : string * list Tool.t => length entry.2) <$> groups)
      = length tools.
Proof.
  unfold groupByCategory.
  induction tools as [|tool tools IH] using rev_ind; intros Hcat.
  - exists []. repeat split; [constructor | done..].
  - rewrite Forall_app, Forall_singleton in Hcat. destruct Hcat as [Hcat Htool].
    destruct (IH Hcat) as (groups & Hgroups & Hnd & Hget & Hsum).
    destruct (category_plain _ Htool) as [Htruthy Hplain].
    rewrite foldl_app, Hgroups. cbn [foldl groupStep mbind option_bind].
    unfold categoryOf. rewrite Htruthy.
    assert (Hfilter : ∀ c, filter (fun tool => Tool.category tool = c) (tools ++ [tool])
                           = filter (fun tool => Tool.category tool = c) tools
                             ++ if String.eqb (Tool.category tool) c then [tool] else []).
    { intros c. rewrite filter_app, filter_cons, filter_nil.
      destruct (String.eqb_spec (Tool.category tool) c) as [Heq|Hne].
      - by rewrite decide_True.
      - by rewrite decide_False. }
    destruct (decide (Tool.category tool ∈ keys groups)) as [Hin|Hout].
    + rewrite bool_decide_eq_true_2 by done. eexists. split; [done|].
      rewrite keys_pushInto. split; [done|]. split.
      * intros c. rewrite getProp_pushInto, Hfilter.
        destruct (String.eqb_spec (Tool.category tool) c) as [<-|Hne].
        -- apply getProp_keys in Hin as [items Hitems]. rewrite Hitems.
           rewrite Hget in Hitems.
           destruct (filter _ tools) as [|first others]; [done|].
           injection Hitems as <-. done.
        -- by rewrite Hget, app_nil_r.
      * rewrite (sum_pushInto _ _ _ Hin), Hsum, length_app. cbn. lia.
    + rewrite bool_decide_eq_false_2 by done.
      rewrite bool_decide_eq_false_2 by done. eexists. split; [done|]. split.
      * unfold keys in *. rewrite fmap_app. apply NoDup_app.
        split; [done|]. split; [|apply NoDup_singleton].
        intros x Hx ->%list_elem_of_singleton. by apply Hout.
      * split.
        -- intros c. rewrite (getProp_snoc _ _ _ _ Hout), Hfilter.
           destruct (String.eqb_spec (Tool.category tool) c) as [<-|Hne].
           ++ assert (getProp groups (Tool.category tool) = None) as Hnone.
              { destruct (getProp groups (Tool.category tool)) eqn:Hsome; [|done].
                destruct Hout. apply getProp_keys. by eexists. }
              rewrite Hget in Hnone.
              by destruct (filter _ tools).
           ++ by rewrite Hget, app_nil_r.
        -- rewrite fmap_app. cbn [fmap list_fmap]. rewrite sum_list_snoc, Hsum, length_app. cbn. lia.
Qed.

(** X16. The statistics of a run (either variant, any project): grouping
    the descriptors never throws; there is one entry per category met, each
    with the number of descriptors of that category; the numbers add up to
    the number of descriptors; and the categories belong to the
    vocabulary. *)
Theorem statistics_by_category (w : World.t) (tools : list Tool.t)
    (Hrun : Lib.extractTools w = Returned tools ∨ Cli.extractTools w = Returned tools) :
  ∃ counts,
    toolsByCategory tools = Some counts
    ∧ NoDup (keys counts)
    ∧ (∀ category,
         getProp counts category
         = match countOf category tools with 0 => None | S n => Some (S n) end)
    ∧ sum_list counts.*2 = length tools
    ∧ Forall (fun category => category ∈ categories) (keys counts).
Proof.
  pose proof (run_category w tools (or_intror Hrun)) as Hcat.
  destruct (groupByCategory_groups tools Hcat) as (groups & Hgroups & Hnd & Hget & Hsum).
  unfold toolsByCategory. rewrite Hgroups. cbn [fmap option_fmap option_map].
  eexists. split; [done|].
  assert (Hkeys : keys ((fun entry : string * list Tool.t => (entry.1, length entry.2))
                          <$> groups) = keys groups).
  { unfold keys. rewrite <- list_fmap_compose. by apply list_fmap_ext. }
  assert (Hcount : ∀ category,
             getProp ((fun entry : string * list Tool.t => (entry.1, length entry.2))
                        <$> groups) category
             = match countOf category tools with 0 => None | S n => Some (S n) end).
  { intros category. rewrite (getProp_fmap length), Hget. unfold countOf.
    by destruct (filter _ tools). }
  rewrite Hkeys. repeat split; [done | done | |].
  - rewrite <- Hsum, <- list_fmap_compose. done.
  - apply Forall_forall. intros category Hin.
    rewrite <- Hkeys in Hin. apply getProp_keys in Hin as [n Hn].
    rewrite Hcount in Hn. unfold countOf in Hn.
    destruct (filter _ tools) as [|tool others] eqn:Hfilter; [done|].
    assert (tool ∈ filter (fun tool => Tool.category tool = category) tools) as Htool.
    { rewrite Hfilter. by left. }
    apply list_elem_of_filter in Htool as [<- Htool].
    rewrite Forall_forall in Hcat. by apply Hcat.
Qed.

Lemma statistics_by_category_witness :
  ∃ counts,
    toolsByCategory
      [ buildTool Lib.variant Demo.bindings Sample.servicePath "[anonymous]"
          (FunctionNode Demo.unnamed);
        buildTool Lib.variant Demo.bindings Sample.servicePath "listUsers"
          (VariableNode Demo.listUsers) ]
    = Some counts
    ∧ sum_list counts.*2 = 2.
Proof.
  destruct (statistics_by_category Demo.bindings _ (or_introl eq_refl))
    as (counts & Hcounts & _ & _ & Hsum & _).
  exists counts. split; [exact Hcounts | exact Hsum].
Defined.

(** ** Project metadata *)

Lemma lookup_optional_table (table : option (gmap string string)) (key : string) :
  table ≫= (fun table => table !! key) = default ∅ table !! key.
Proof. destruct table as [table|]; [done|]. symmetry. apply lookup_empty. Qed.

Lemma dependsOn_declared (packageJson : PackageJson.t) (key : string) :
  dependsOn (mergedDependencies packageJson) key = true
  <-> ∃ version, declared packageJson key = Some version ∧ version ≠ "".
Proof.
  unfold dependsOn, mergedDependencies, declared.
  rewrite !lookup_optional_table, lookup_union.
  destruct (default ∅ (PackageJson.devDependencies packageJson) !! key) as [dev|];
    destruct (default ∅ (PackageJson.dependencies packageJson) !! key) as [deps|];
    cbn; rewrite ?truthy_spec.
  all: split; [intros ?; by eauto | intros (? & ? & ?); by simplify_eq].
Qed.

(** X17. Framework detection.  A framework of the table is reported
    exactly when its package is declared with a non-empty version text,
    where an entry of the development table replaces the entry of the same
    name in the other table (and so can hide it); the frameworks reported
    come in the order of the table. *)
Theorem framework_detection (cwdName : string) (packageJson : PackageJson.t)
    (key framework : string)
    (Hentry : (key, framework) ∈ frameworkTable) :
  let metadata := Metadata.extractProjectMetadata cwdName (Some packageJson) in
  (framework ∈ ProjectMetadata.frameworks metadata
   <-> ∃ version, declared packageJson key = Some version ∧ version ≠ "")
  ∧ ProjectMetadata.frameworks metadata `sublist_of` frameworkTable.*2.
Proof.
  cbn zeta. unfold Metadata.extractProjectMetadata.
  cbn [ProjectMetadata.frameworks fmap option_fmap option_map default].
  split.
  - rewrite <- dependsOn_declared, list_elem_of_fmap. split.
    + intros ([key' framework'] & Heq & [Hdep Hin]%list_elem_of_filter).
      cbn in Heq, Hdep. subst framework'.
      assert (key' = key) as ->; [|by apply Is_true_true].
      unfold frameworkTable in Hentry, Hin.
      split_alternatives Hentry; split_alternatives Hin; by simplify_eq.
    + intros Hdep. exists (key, framework). split; [done|].
      apply list_elem_of_filter. split; [by apply Is_true_true | done].
  - apply fmap_sublist, sublist_filter.
Qed.

Lemma framework_detection_witness :
  let metadata := Metadata.extractProjectMetadata "dir" (Some Demo.packageJson) in
  ("Express" ∈ ProjectMetadata.frameworks metadata
   <-> ∃ version, declared Demo.packageJson "express" = Some version ∧ version ≠ "")
  ∧ ProjectMetadata.frameworks metadata `sublist_of` frameworkTable.*2.
Proof.
  apply (framework_detection "dir" Demo.packageJson "express" "Express").
  unfold frameworkTable. in_list.
Defined.

(** ** Descriptions *)

(** X18. The description of a descriptor is never empty, in either
    variant, unless the comment of the first documentation block is an
    array of nodes: a comment that is a non-empty string is taken as it is,
    and in every other case the guess from the name stands. *)
Theorem description_never_empty (V : Variant.t) (w : World.t)
    (filePath name : string) (fn : FnNode)
    (HV : V = Lib.variant ∨ V = Cli.variant)
    (Hplain : ∀ sig doc, Fn.signature_in fn = Some sig ->
                head (Signature.getJsDocs sig) = Some doc ->
                ∀ parts, JSDoc.getComment doc ≠ NodeComment parts) :
  Tool.description (buildTool V w filePath name fn) ≠ "".
Proof.
  unfold buildTool, document.
  destruct (Fn.signature_in fn) as [sig|]; cbn [default fmap option_fmap option_map].
  2:{ apply guessDescription_not_empty. }
  specialize (Hplain sig). unfold id.
  destruct (Signature.getJsDocs sig) as [|doc docs]; cbn.
  { apply guessDescription_not_empty. }
  specialize (Hplain doc eq_refl eq_refl).
  destruct (JSDoc.getComment doc) as [|text|parts]; cbn.
  - apply guessDescription_not_empty.
  - destruct (truthy text) eqn:Htruthy; [|apply guessDescription_not_empty].
    apply truthy_spec in Htruthy. by destruct HV as [-> | ->].
  - by destruct (Hplain parts).
Qed.

Lemma description_never_empty_witness :
  Tool.description
    (buildTool Cli.variant Demo.bindings "/project/src/users.ts" "updateUser"
       (FunctionNode Demo.updateUser)) ≠ "".
Proof.
  apply (description_never_empty Cli.variant Demo.bindings "/project/src/users.ts"
           "updateUser" (FunctionNode Demo.updateUser) (or_intror eq_refl)).
  intros sig doc [= <-] [= <-] parts. done.
Defined.

(** ** Further properties of the Type Normalizer *)

Lemma app_assoc_string (a b c : string) : (a +:+ b) +:+ c = a +:+ (b +:+ c).
Proof.
  induction a as [|x a IH]; [done|]. by rewrite !app_cons_string, IH.
Qed.

Lemma app_nil_r_string (a : string) : a +:+ "" = a.
Proof. induction a as [|x a IH]; [done|]. by rewrite app_cons_string, IH. Qed.

Lemma prefix_nil (s : string) : String.prefix "" s = true.
Proof. by destruct s. Qed.

(** A text without [import(] has no module qualifier to remove. *)
Lemma removeAll_no_import (s : string) :
  JS.includes s "import(" = false -> JS.removeAll RegExp.importAt s = s.
Proof.
  unfold JS.removeAll. induction s as [|c s IH]; [done|].
  cbn [JS.includes]. intros [Hhead Htail]%orb_false_elim.
  cbn [JS.removeAllFrom]. unfold RegExp.importAt at 1. rewrite Hhead.
  by rewrite (IH Htail).
Qed.

Lemma trimEnd_snoc (s : string) (c : ascii) :
  JS.isSpace c = false -> JS.trimEnd (s +:+ String c "") = s +:+ String c "".
Proof.
  intros Hc. induction s as [|x s IH].
  - rewrite app_nil_string. cbn [JS.trimEnd]. by rewrite Hc.
  - rewrite app_cons_string. cbn [JS.trimEnd]. rewrite IH.
    destruct s; by rewrite ?app_nil_string, ?app_cons_string.
Qed.

Lemma trim_wrapped (first last : ascii) (body : string) :
  JS.isSpace first = false -> JS.isSpace last = false ->
  JS.trim (String first (body +:+ String last "")) = String first (body +:+ String last "").
Proof.
  intros Hfirst Hlast. unfold JS.trim. cbn [JS.trimStart]. rewrite Hfirst.
  rewrite <- app_cons_string. by apply trimEnd_snoc.
Qed.

Lemma stripQualifiers_wrapped (first last : ascii) (body : string) :
  JS.isSpace first = false -> JS.isSpace last = false ->
  JS.includes (String first (body +:+ String last "")) "import(" = false ->
  stripQualifiers (String first (body +:+ String last ""))
  = String first (body +:+ String last "").
Proof.
  intros Hfirst Hlast Hplain. unfold stripQualifiers.
  rewrite (removeAll_no_import _ Hplain). by apply trim_wrapped.
Qed.

(** *** Unions of string literals *)

Lemma quoteFree_cons (c : ascii) (s : string) :
  quoteFree (String c s) = RegExp.notChar RegExp.dquote c && quoteFree s.
Proof.
  unfold quoteFree. cbn [JS.includes String.prefix]. unfold RegExp.notChar.
  rewrite prefix_nil, negb_orb.
  destruct (ascii_dec RegExp.dquote c) as [<-|Hne]; [done|].
  destruct (Ascii.eqb_spec c RegExp.dquote) as [->|_]; [by destruct Hne | done].
Qed.

Lemma span_quoteFree (v rest : string) :
  quoteFree v = true ->
  RegExp.span (RegExp.notChar RegExp.dquote) (v +:+ String RegExp.dquote rest)
  = (v, String RegExp.dquote rest).
Proof.
  induction v as [|c v IH]; [done|].
  rewrite quoteFree_cons, app_cons_string.
  intros [Hc Hv]%andb_true_iff. cbn [RegExp.span]. by rewrite Hc, (IH Hv).
Qed.

Lemma quoted_app (v rest : string) :
  quoted v +:+ rest = String RegExp.dquote (v +:+ String RegExp.dquote rest).
Proof.
  unfold quoted. by rewrite app_cons_string, app_assoc_string, app_cons_string.
Qed.

Lemma unionOf_cons (v v' : string) (values : list string) :
  unionOf (v :: v' :: values) = quoted v +:+ " | " +:+ unionOf (v' :: values).
Proof. done. Qed.

Lemma unionOf_wrapped (values : list string) :
  values ≠ [] ->
  ∃ body, unionOf values = String RegExp.dquote (body +:+ String RegExp.dquote "").
Proof.
  induction values as [|v values IH]; [done|]. intros _.
  destruct values as [|v' values]; [by exists v|].
  destruct IH as [body Hbody]; [done|].
  rewrite unionOf_cons, Hbody, quoted_app.
  exists (v +:+ String RegExp.dquote (" | " +:+ String RegExp.dquote body)).
  by rewrite !app_assoc_string, !app_cons_string, !app_nil_string.
Qed.

Lemma enumRun_app (st : RegExp.enumState) (a b : string) :
  RegExp.enumRun st (a +:+ b) = RegExp.enumRun (RegExp.enumRun st a) b.
Proof.
  revert st. induction a as [|c a IH]; intros st; [done|].
  rewrite app_cons_string. cbn [RegExp.enumRun]. apply IH.
Qed.

Lemma enumRun_inside (v : string) :
  quoteFree v = true -> RegExp.enumRun RegExp.Inside v = RegExp.Inside.
Proof.
  induction v as [|c v IH]; [done|]. rewrite quoteFree_cons.
  intros [Hc Hv]%andb_true_iff. cbn [RegExp.enumRun RegExp.enumStep].
  unfold RegExp.notChar in Hc. apply negb_true_iff in Hc. rewrite Hc. by apply IH.
Qed.

Lemma enumRun_quoted (st : RegExp.enumState) (v : string) :
  st = RegExp.Start ∨ st = RegExp.AfterBar ->
  v ≠ "" -> quoteFree v = true ->
  RegExp.enumRun st (quoted v) = RegExp.Closed.
Proof.
  intros Hst Hne Hfree. destruct v as [|c v]; [done|].
  rewrite quoteFree_cons in Hfree. apply andb_true_iff in Hfree as [Hc Hv].
  unfold RegExp.notChar in Hc. apply negb_true_iff in Hc.
  assert (RegExp.enumRun st (String RegExp.dquote (String c "")) = RegExp.Inside) as Hopen.
  { destruct Hst as [-> | ->]; cbn; by rewrite Hc. }
  unfold quoted. rewrite app_cons_string.
  change (String RegExp.dquote (String c (v +:+ String RegExp.dquote "")))
    with (String RegExp.dquote (String c "") +:+ (v +:+ String RegExp.dquote "")).
  rewrite !enumRun_app, Hopen, (enumRun_inside v Hv). done.
Qed.

Lemma enumRun_union (st : RegExp.enumState) (values : list string) :
  st = RegExp.Start ∨ st = RegExp.AfterBar ->
  values ≠ [] ->
  Forall (fun v => v ≠ "" ∧ quoteFree v = true) values ->
  RegExp.enumRun st (unionOf values) = RegExp.Closed.
Proof.
  intros Hst Hne Hvalues. revert st Hst.
  induction Hvalues as [|v values [Hv Hfree] Hrest IH]; [done|]. intros st Hst.
  destruct values as [|v' values]; [by apply enumRun_quoted|].
  rewrite unionOf_cons, !enumRun_app, (enumRun_quoted st v Hst Hv Hfree).
  apply IH; [done | by right].
Qed.

Lemma quotedAllFrom_skip (x rest : string) :
  RegExp.quotedAllFrom (String.length x) (x +:+ rest) = RegExp.quotedAllFrom 0 rest.
Proof.
  induction x as [|c x IH]; [done|]. rewrite app_cons_string. apply IH.
Qed.

Lemma quotedAllFrom_quoted (v rest : string) :
  v ≠ "" -> quoteFree v = true ->
  RegExp.quotedAllFrom 0 (quoted v +:+ rest) = v :: RegExp.quotedAllFrom 0 rest.
Proof.
  intros Hne Hfree. rewrite quoted_app.
  cbn [RegExp.quotedAllFrom RegExp.quotedAt].
  change "034"%char with RegExp.dquote. rewrite (span_quoteFree v rest Hfree).
  rewrite (proj2 (String.eqb_neq v "") Hne). cbn [negb andb String.prefix].
  destruct (ascii_dec RegExp.dquote RegExp.dquote) as [_|Hd]; [|by destruct Hd].
  rewrite prefix_nil, Nat.add_comm. cbn [Nat.add]. f_equal.
  change (String RegExp.dquote rest) with (String RegExp.dquote "" +:+ rest).
  rewrite <- app_assoc_string.
  replace (S (String.length v)) with (String.length (v +:+ String RegExp.dquote "")).
  - apply quotedAllFrom_skip.
  - clear. induction v as [|c v IH]; [done|]. rewrite app_cons_string. cbn. by rewrite IH.
Qed.

Lemma quotedAll_union (values : list string) :
  Forall (fun v => v ≠ "" ∧ quoteFree v = true) values ->
  RegExp.quotedAll (unionOf values) = values.
Proof.
  unfold RegExp.quotedAll.
  induction 1 as [|v values [Hv Hfree] Hrest IH]; [done|].
  destruct values as [|v' values].
  - change (unionOf [v]) with (quoted v). rewrite <- (app_nil_r_string (quoted v)).
    by rewrite quotedAllFrom_quoted.
  - rewrite unionOf_cons, quotedAllFrom_quoted by done. f_equal.
    rewrite !app_cons_string, app_nil_string. exact IH.
Qed.

(** X19. Unions of string literals are read back as they were written:
    for values that are not empty and hold no double quote, the union of
    the quoted values (in a text without module qualifier) is an
    enumeration of exactly these values, in order, in both variants. *)
Theorem enum_round_trip (values : list string)
    (Hsome : values ≠ [])
    (Hvalues : Forall (fun v => v ≠ "" ∧ quoteFree v = true) values)
    (Hplain : JS.includes (unionOf values) "import(" = false) :
  Lib.parseTypeScriptType (unionOf values)
  = TypeInfo.mk (Tag "string") (Some ("One of: " +:+ JS.join ", " values)) (Some values)
  ∧ Cli.parseTypeScriptType (unionOf values) = Lib.parseTypeScriptType (unionOf values).
Proof.
  destruct (unionOf_wrapped values Hsome) as [body Hbody].
  split.
  - unfold Lib.parseTypeScriptType.
    assert (stripQualifiers (unionOf values) = unionOf values) as ->.
    { rewrite Hbody in Hplain |- *. by apply stripQualifiers_wrapped. }
    unfold RegExp.enumMatch.
    rewrite (enumRun_union RegExp.Start values (or_introl eq_refl) Hsome Hvalues).
    by rewrite (quotedAll_union values Hvalues).
  - unfold Cli.parseTypeScriptType. by rewrite Hbody.
Qed.

Lemma enum_round_trip_witness :
  Lib.parseTypeScriptType Demo.roleUnion
  = TypeInfo.mk (Tag "string") (Some "One of: admin, user") (Some ["admin"; "user"])
  ∧ Cli.parseTypeScriptType Demo.roleUnion = Lib.parseTypeScriptType Demo.roleUnion.
Proof.
  apply (enum_round_trip ["admin"; "user"]); [done | | reflexivity].
  by repeat constructor.
Defined.

(** *** Promises *)

Lemma enumRun_dead (s : string) : RegExp.enumRun RegExp.Dead s = RegExp.Dead.
Proof. induction s as [|c s IH]; [done | exact IH]. Qed.

Lemma substring_all (s : string) : substring 0 (String.length s) s = s.
Proof. induction s as [|c s IH]; [done|]. cbn. by rewrite IH. Qed.

Lemma oneLine_span (s : string) :
  oneLine s = true -> RegExp.span RegExp.isDot s = (s, "").
Proof.
  induction s as [|c s IH]; [done|]. cbn [oneLine RegExp.span].
  intros [Hc Hs]%andb_true_iff. by rewrite Hc, (IH Hs).
Qed.

Lemma oneLine_snoc (s : string) (c : ascii) :
  oneLine s = true -> RegExp.isDot c = true -> oneLine (s +:+ String c "") = true.
Proof.
  intros Hs Hc. induction s as [|x s IH].
  - rewrite app_nil_string. cbn. by rewrite Hc.
  - rewrite app_cons_string. cbn [oneLine] in *.
    apply andb_true_iff in Hs as [Hx Hs]. by rewrite Hx, (IH Hs).
Qed.

Lemma beforeLast_snoc (x : ascii) (s : string) :
  RegExp.beforeLast x (s +:+ String x "") = Some s.
Proof.
  induction s as [|c s IH].
  - rewrite app_nil_string. cbn. by rewrite Ascii.eqb_refl.
  - rewrite app_cons_string. cbn [RegExp.beforeLast]. by rewrite IH.
Qed.

(** X20. A promise of a plain type: for an inner text of ASCII characters
    that is not empty and holds no line break, [Promise<inner>] (with no
    array marker and no module qualifier in it) has the kind promise and the
    inner text, up to the last closing bracket, in its description, in both
    variants. *)
Theorem promise_of_plain_type (inner : string)
    (Hsome : inner ≠ "")
    (Hascii : asciiText inner = true)
    (Hline : oneLine inner = true)
    (Harray : JS.includes ("Promise<" +:+ inner +:+ ">") "[]" = false)
    (Hplain : JS.includes ("Promise<" +:+ inner +:+ ">") "import(" = false) :
  Lib.parseTypeScriptType ("Promise<" +:+ inner +:+ ">")
  = TypeInfo.mk (Tag "promise") (Some ("Promise resolving to " +:+ inner)) None
  ∧ Cli.parseTypeScriptType ("Promise<" +:+ inner +:+ ">")
    = Lib.parseTypeScriptType ("Promise<" +:+ inner +:+ ">").
Proof.
  assert ("Promise<" +:+ inner +:+ ">"
          = String "P" ("romise<" +:+ inner +:+ String ">" "")) as Htext.
  { by rewrite !app_cons_string. }
  split; [|by rewrite Htext].
  unfold Lib.parseTypeScriptType.
  assert (stripQualifiers ("Promise<" +:+ inner +:+ ">") = "Promise<" +:+ inner +:+ ">")
    as ->.
  { rewrite Htext in Hplain |- *. rewrite <- app_assoc_string in Hplain |- *.
    by apply stripQualifiers_wrapped. }
  unfold arrayLike. rewrite Harray.
  assert ("Promise<" +:+ inner +:+ ">"
          = String "P" (String "r" (String "o" (String "m" (String "i" (String "s"
              (String "e" (String "<" (inner +:+ ">"))))))))) as ->.
  { by rewrite !app_cons_string, app_nil_string. }
  unfold RegExp.enumMatch. cbn [RegExp.enumRun]. rewrite enumRun_dead.
  cbn [JS.startsWith String.prefix orb]. cbn. rewrite prefix_nil.
  unfold RegExp.promiseAt. cbn. rewrite prefix_nil, Nat.sub_0_r.
  rewrite substring_all, (oneLine_span _ (oneLine_snoc inner ">" Hline eq_refl)).
  cbn [fst]. rewrite beforeLast_snoc.
  destruct inner as [|c inner]; [done|]. done.
Qed.

Lemma promise_of_plain_type_witness :
  Lib.parseTypeScriptType "Promise<User>"
  = TypeInfo.mk (Tag "promise") (Some "Promise resolving to User") None
  ∧ Cli.parseTypeScriptType "Promise<User>" = Lib.parseTypeScriptType "Promise<User>".
Proof.
  apply (promise_of_plain_type "User"); [done | reflexivity..].
Defined.
